(** * hermetic-stub.py: a shallow embedding and its verified properties

    The script kernel/lib/code-patching/hermetic-stub.py renders a small
    assembly file that reserves room for a function patched at run time,
    and a makefile-style dependency record.  This development embeds the
    script as a state-and-exception computation over a file system and
    proves the behaviour its description promises.

    Conventions of the embedding.
    - A Python [str] is a Rocq [string] of bytes, the UTF-8 form of the
      text.  Byte-wise order on UTF-8 text agrees with Python's code-point
      order, so [sorted] on strings is [String.leb].
    - Python integers are [Z].
    - Exceptions are values of [exn]; a computation returns its final file
      system together with either a value or the exception it raised, so
      that what was written before a failure stays visible.
    - What is no part of the script is a parameter of the development:
      the decoder [json.load], the case mapping [str.upper] (class
      [PyStr.Upper], with its law on ASCII text), and the way the system
      resolves a path to the file it names (class [Paths]).  The
      theorems hold for every such parameter; the concrete runs choose
      one.
    - A file object is written through without failure: the texts the
      script writes are taken to be encodable, and the device to have
      room. *)

From Stdlib Require Import ZArith Ascii String List Lia.
From stdpp Require Import base option strings list sorting gmap pretty.

Local Open Scope Z_scope.
Local Open Scope string_scope.

(** ** Exceptions and outcomes *)

Inductive exn : Type :=
  | FileNotFoundError
  | NotADirectoryError
  | IsADirectoryError
  | PermissionError
  | OSError
  | OverflowError
  | JSONDecodeError
  | TypeError
  | KeyError
  | ValueError
  | AttributeError
  | SystemExit (code : Z).

Inductive outcome (A : Type) : Type :=
  | Return (a : A)
  | Raise (e : exn).
Arguments Return {A} a.
Arguments Raise {A} e.

Definition raised {A} (o : outcome A) : Prop :=
  match o with Raise _ => True | Return _ => False end.

(** ** Strings as Python uses them *)

Module PyStr.

Definition between (lo hi c : ascii) : bool :=
  (Ascii.leb lo c && Ascii.leb c hi)%bool.

Definition is_lower (c : ascii) : bool := between "a" "z" c.
Definition is_upper (c : ascii) : bool := between "A" "Z" c.
Definition is_digit (c : ascii) : bool := between "0" "9" c.

(** Text of ASCII characters only. *)
Definition is_ascii (c : ascii) : bool := N.ltb (N_of_ascii c) 128.

Fixpoint ascii_text (s : string) : bool :=
  match s with
  | EmptyString => true
  | String c r => (is_ascii c && ascii_text r)%bool
  end.

(** Upper case as the words have it: each of the letters a to z is
    replaced by its capital, looked up in the two alphabets, and every
    other character is kept. *)
Definition small_letters : string := "abcdefghijklmnopqrstuvwxyz".
Definition capital_letters : string := "ABCDEFGHIJKLMNOPQRSTUVWXYZ".

Fixpoint capital_in (smalls capitals : string) (c : ascii) : ascii :=
  match smalls, capitals with
  | String a smalls', String b capitals' =>
      if Ascii.eqb c a then b else capital_in smalls' capitals' c
  | _, _ => c
  end.

Definition capital (c : ascii) : ascii :=
  capital_in small_letters capital_letters c.

Fixpoint capitalised (s : string) : string :=
  match s with
  | EmptyString => EmptyString
  | String c r => String (capital c) (capitalised r)
  end.

(** [s.upper()]: the case mapping of the Python library, which follows
    Unicode.  Of what it does, the development uses that on ASCII text it
    capitalises the letters a to z and keeps the rest. *)
Class Upper : Type := {
  upper : string -> string;
  upper_ascii_text : forall s, ascii_text s = true -> upper s = capitalised s
}.

(** The case mapping on the bytes of ASCII letters, other bytes kept.
    It is [str.upper] on ASCII text, and stands for it in the concrete
    runs, whose names are ASCII. *)
Definition upper_ascii (c : ascii) : ascii :=
  if is_lower c then ascii_of_N (N_of_ascii c - 32) else c.

Fixpoint ascii_upper (s : string) : string :=
  match s with
  | EmptyString => EmptyString
  | String c r => String (upper_ascii c) (ascii_upper r)
  end.

Definition ascii_only : Upper.
Proof.
  refine {| upper := ascii_upper |}.
  intros s _. induction s as [|c r IH]; [reflexivity|].
  simpl. rewrite IH. f_equal.
  destruct c as [[] [] [] [] [] [] [] []]; reflexivity.
Defined.

(** [sep.join(l)]. *)
Definition join (sep : string) (l : list string) : string :=
  String.concat sep l.

(** [str(x)] for an optional command-line value: [None] prints as its
    name. *)
Definition str_opt (o : option string) : string :=
  match o with Some s => s | None => "None" end.

(** [str(n)] for an integer. *)
Definition str_int (n : Z) : string := pretty n.

(** [sorted(l)] for a list of strings: a merge sort under the
    lexicographic order of the characters, [String.le]. *)
Definition sorted (l : list string) : list string := merge_sort String.le l.

End PyStr.

(** ** string.Template *)

Module Template.

(** What the pattern of [string.Template] finds from left to right:
    plain characters, the escape [$$], a placeholder [$id] or [${id}],
    and a [$] that starts none of these. *)
Inductive segment : Type :=
  | Lit (c : ascii)
  | Escaped
  | Named (id : string)
  | Invalid.

Inductive scan : Type :=
  | Text
  | Dollar
  | Ident (acc : string)
  | BraceOpen
  | Brace (acc : string).

(** The identifier pattern of the class: an ASCII letter or underscore,
    then ASCII letters, digits and underscores, in either case
    ([re.IGNORECASE]). *)
Definition id_start (c : ascii) : bool :=
  (Ascii.eqb c "_" || PyStr.is_lower c || PyStr.is_upper c)%bool.
Definition id_char (c : ascii) : bool :=
  (id_start c || PyStr.is_digit c)%bool.

Definition snoc (s : string) (c : ascii) : string :=
  s +:+ String c EmptyString.

Fixpoint tokens (st : scan) (s : string) : list segment :=
  match s with
  | EmptyString =>
      match st with
      | Text => []
      | Ident acc => [Named acc]
      | Dollar | BraceOpen | Brace _ => [Invalid]
      end
  | String c r =>
      match st with
      | Text =>
          if Ascii.eqb c "$" then tokens Dollar r
          else Lit c :: tokens Text r
      | Dollar =>
          if Ascii.eqb c "$" then Escaped :: tokens Text r
          else if id_start c then tokens (Ident (String c EmptyString)) r
          else if Ascii.eqb c "{" then tokens BraceOpen r
          else [Invalid]
      | Ident acc =>
          if id_char c then tokens (Ident (snoc acc c)) r
          else if Ascii.eqb c "$" then Named acc :: tokens Dollar r
          else Named acc :: Lit c :: tokens Text r
      | BraceOpen =>
          if id_start c then tokens (Brace (String c EmptyString)) r
          else [Invalid]
      | Brace acc =>
          if id_char c then tokens (Brace (snoc acc c)) r
          else if Ascii.eqb c "}" then Named acc :: tokens Text r
          else [Invalid]
      end
  end.

(** Keyword arguments of [substitute], already passed through [str]. *)
Definition mapping : Type := list (string * string).

Fixpoint lookup (m : mapping) (k : string) : option string :=
  match m with
  | [] => None
  | (k', v) :: m' => if String.eqb k k' then Some v else lookup m' k
  end.

Fixpoint render (ts : list segment) (m : mapping) : outcome string :=
  match ts with
  | [] => Return EmptyString
  | Lit c :: ts' =>
      match render ts' m with
      | Return r => Return (String c r)
      | Raise e => Raise e
      end
  | Escaped :: ts' =>
      match render ts' m with
      | Return r => Return (String "$" r)
      | Raise e => Raise e
      end
  | Named id :: ts' =>
      match lookup m id with
      | None => Raise KeyError
      | Some v =>
          match render ts' m with
          | Return r => Return (v +:+ r)
          | Raise e => Raise e
          end
      end
  | Invalid :: _ => Raise ValueError
  end.

(** [string.Template(t).substitute] with the keyword arguments [m]. *)
Definition substitute (t : string) (m : mapping) : outcome string :=
  render (tokens Text t) m.

End Template.

Definition nl : string := String (ascii_of_N 10) EmptyString.

(** ** Values decoded from JSON *)

(** The Python object [json.load] returns: [None], [bool], [int], [float]
    (kept as its literal), [str], [list], and [dict] given by its items, the
    keys of a dict being pairwise distinct. *)
#[warnings="-register-all"] Inductive json : Type :=
  | JNull
  | JBool (b : bool)
  | JInt (n : Z)
  | JFloat (literal : string)
  | JStr (s : string)
  | JArr (l : list json)
  | JObj (items : list (string * json)).

Module Py.

Fixpoint chars (s : string) : list json :=
  match s with
  | EmptyString => []
  | String c r => JStr (String c EmptyString) :: chars r
  end.

(** What [for entry in v] runs over: the elements of a list, the keys of
    a dict, the characters of a string; other values are not iterable. *)
Definition iterate (v : json) : outcome (list json) :=
  match v with
  | JArr l => Return l
  | JObj items => Return (map (fun kv => JStr (fst kv)) items)
  | JStr s => Return (chars s)
  | JNull | JBool _ | JInt _ | JFloat _ => Raise TypeError
  end.

Fixpoint dict_get (items : list (string * json)) (k : string) : option json :=
  match items with
  | [] => None
  | (k', v) :: r => if String.eqb k k' then Some v else dict_get r k
  end.

(** [v[k]] for a string key [k]: only a dict can be indexed by a string. *)
Definition getitem (v : json) (k : string) : outcome json :=
  match v with
  | JObj items =>
      match dict_get items k with
      | Some x => Return x
      | None => Raise KeyError
      end
  | _ => Raise TypeError
  end.

(** The strings of a list whose items are all [str]. *)
Fixpoint all_str (l : list json) : option (list string) :=
  match l with
  | [] => Some []
  | JStr s :: r =>
      match all_str r with
      | Some ss => Some (s :: ss)
      | None => None
      end
  | _ :: _ => None
  end.

End Py.

(** ** The world of one run: files, descriptors, the clock *)

(** Which file a path names: what the system makes of the working
    directory, of [.] and [..], of links.  Two paths name the same file
    when they resolve alike; the script creates no directory and no link,
    so the resolution is the same before, during and after a run. *)
Class Paths : Type := inode : string -> string.

Definition same_file `{!Paths} (p q : string) : Prop := inode p = inode q.

Record node : Type := { data : string; readable : bool }.

Record date : Type := { year : Z; month : Z; day : Z }.

(** [files] holds the files, each under what its paths resolve to;
    [open_error p] is the exception [open(p, "w")] raises, if it does (the
    directory is missing, permissions forbid it, the path is a
    directory); [absent_error p] is the exception the system raises for a
    path that names no file ([FileNotFoundError], [NotADirectoryError],
    [ValueError] for a NUL byte); [fd_size n] is what [os.stat] answers
    for the integer [n] taken as a file descriptor; [today] is the
    wall-clock date. *)
Record world : Type := {
  files : gmap string node;
  open_error : string -> option exn;
  absent_error : string -> exn;
  fd_size : Z -> outcome Z;
  today : date
}.

Definition with_files (w : world) (fs : gmap string node) : world :=
  {| files := fs; open_error := open_error w;
     absent_error := absent_error w; fd_size := fd_size w;
     today := today w |}.

(** [open(p, "w")] succeeds. *)
Definition writable (w : world) (p : string) : bool :=
  match open_error w p with
  | None => true
  | Some _ => false
  end.

Section Files.

Context {the_paths : Paths}.

(** The file the path [p] names, if it names one. *)
Definition file_at (w : world) (p : string) : option node :=
  files w !! inode p.

(** The text of the file at [p], if there is one. *)
Definition contents (w : world) (p : string) : option string :=
  data <$> file_at w p.

(** Its size in bytes. *)
Definition size_of (w : world) (p : string) : option Z :=
  (fun n => Z.of_nat (String.length (data n))) <$> file_at w p.

End Files.

(** ** Computations: state and exceptions *)

Definition M (A : Type) : Type := world -> world * outcome A.

Definition ret {A} (a : A) : M A := fun w => (w, Return a).
Definition raise {A} (e : exn) : M A := fun w => (w, Raise e).
Definition lift {A} (o : outcome A) : M A := fun w => (w, o).
Definition bind {A B} (m : M A) (k : A -> M B) : M B :=
  fun w =>
    match m w with
    | (w', Return a) => k a w'
    | (w', Raise e) => (w', Raise e)
    end.

Notation "x <- m ;; k" := (bind m (fun x => k))
  (at level 100, m at next level, right associativity).
Notation "m ;;; k" := (bind m (fun _ => k))
  (at level 100, right associativity).

Module IO.

Section WithPaths.

Context {the_paths : Paths}.

(** [with open(p, "r") as f: f.read()] *)
Definition read_text (p : option string) : M string :=
  fun w =>
    match p with
    | None => (w, Raise TypeError)
    | Some p =>
        match file_at w p with
        | None => (w, Raise (absent_error w p))
        | Some n =>
            if readable n then (w, Return (data n))
            else (w, Raise PermissionError)
        end
    end.

(** [open(p, "w")]: the file [p] names is created, or emptied if it
    exists; the answer stands for the file object, which is bound to the
    file and not to the path. *)
Definition open_w (p : option string) : M string :=
  fun w =>
    match p with
    | None => (w, Raise TypeError)
    | Some p =>
        match open_error w p with
        | None =>
            let r := match file_at w p with
                     | Some n => readable n
                     | None => true
                     end in
            (with_files w
               (<[inode p := {| data := EmptyString; readable := r |}]>
                  (files w)),
             Return (inode p))
        | Some e => (w, Raise e)
        end
    end.

(** [f.write(s)] on the file object [f]. *)
Definition write (f : string) (s : string) : M unit :=
  fun w =>
    (with_files w
       (alter (fun n => {| data := data n +:+ s; readable := readable n |}) f
          (files w)),
     Return tt).

(** [os.path.getsize(v)]: a string is a path, an integer (or a bool,
    which is one) a file descriptor; nothing else can be stat-ed. *)
Definition getsize (v : json) : M Z :=
  fun w =>
    match v with
    | JStr p =>
        match size_of w p with
        | Some n => (w, Return n)
        | None => (w, Raise (absent_error w p))
        end
    | JInt n => (w, fd_size w n)
    | JBool b => (w, fd_size w (if b then 1 else 0))
    | JNull | JFloat _ | JArr _ | JObj _ => (w, Raise TypeError)
    end.

End WithPaths.

(** [datetime.today().year] *)
Definition today_year : M Z := fun w => (w, Return (year (today w))).

End IO.

(** ** A reference decoder for concrete metadata files

    The theorems below hold for any decoder standing for [json.loads].
    To run the script on concrete files, this decoder reads JSON as the
    Python library does: the text must be UTF-8; values are [null],
    [true], [false], integers, floats (kept as their literal, [NaN] and
    the infinities among them), strings with their escapes, arrays and
    objects.  A later duplicate of a key replaces the value of the earlier
    one, as in the Python dict. *)

Module MiniJson.

Definition dq : ascii := ascii_of_N 34.
Definition backslash : ascii := ascii_of_N 92.

Definition is_ws (c : ascii) : bool :=
  (Ascii.eqb c " " || Ascii.eqb c (ascii_of_N 10)
   || Ascii.eqb c (ascii_of_N 13) || Ascii.eqb c (ascii_of_N 9))%bool.

Fixpoint skip_ws (s : string) : string :=
  match s with
  | String c r => if is_ws c then skip_ws r else s
  | EmptyString => s
  end.

(** The rest of [s] after the prefix [p]. *)
Fixpoint strip (p s : string) : option string :=
  match p, s with
  | EmptyString, _ => Some s
  | String a p', String b s' => if Ascii.eqb a b then strip p' s' else None
  | String _ _, EmptyString => None
  end.

Definition unescape (c : ascii) : option ascii :=
  if Ascii.eqb c dq then Some dq
  else if Ascii.eqb c backslash then Some backslash
  else if Ascii.eqb c "/" then Some "/"%char
  else if Ascii.eqb c "n" then Some (ascii_of_N 10)
  else if Ascii.eqb c "t" then Some (ascii_of_N 9)
  else if Ascii.eqb c "r" then Some (ascii_of_N 13)
  else if Ascii.eqb c "b" then Some (ascii_of_N 8)
  else if Ascii.eqb c "f" then Some (ascii_of_N 12)
  else None.

(** The text is UTF-8: every character is one byte below 128, or a lead
    byte followed by the continuation bytes it calls for, over-long forms
    and surrogates excluded.  [more] counts the continuation bytes still
    due, the next of them within [lo] and [hi]. *)
Fixpoint utf8_from (more : nat) (lo hi : N) (s : string) : bool :=
  match s with
  | EmptyString => match more with O => true | S _ => false end
  | String c r =>
      let b := N_of_ascii c in
      match more with
      | S more' =>
          (N.leb lo b && N.leb b hi && utf8_from more' 128 191 r)%bool
      | O =>
          if N.ltb b 128 then utf8_from 0 128 191 r
          else if (N.leb 194 b && N.leb b 223)%bool then utf8_from 1 128 191 r
          else if N.eqb b 224 then utf8_from 2 160 191 r
          else if N.eqb b 237 then utf8_from 2 128 159 r
          else if (N.leb 225 b && N.leb b 239)%bool then utf8_from 2 128 191 r
          else if N.eqb b 240 then utf8_from 3 144 191 r
          else if (N.leb 241 b && N.leb b 243)%bool then utf8_from 3 128 191 r
          else if N.eqb b 244 then utf8_from 3 128 143 r
          else false
      end
  end.

Definition utf8_valid (s : string) : bool := utf8_from 0 128 191 s.

Definition hex_digit (c : ascii) : option N :=
  let b := N_of_ascii c in
  if PyStr.is_digit c then Some (b - 48)%N
  else if PyStr.between "a" "f" c then Some (b - 87)%N
  else if PyStr.between "A" "F" c then Some (b - 55)%N
  else None.

(** The four hexadecimal digits of an escape, and what follows them. *)
Definition hex4 (s : string) : option (N * string) :=
  match s with
  | String a (String b (String c (String d r))) =>
      match hex_digit a, hex_digit b, hex_digit c, hex_digit d with
      | Some x, Some y, Some z, Some t =>
          Some ((((x * 16 + y) * 16 + z) * 16 + t)%N, r)
      | _, _, _, _ => None
      end
  | _ => None
  end.

Definition byte (n : N) : string := String (ascii_of_N n) EmptyString.

(** The bytes of a code point (a lone surrogate takes the three-byte
    form, as any code point of its range). *)
Definition utf8_encode (cp : N) : string :=
  if N.ltb cp 128 then byte cp
  else if N.ltb cp 2048 then
    byte (192 + cp / 64) +:+ byte (128 + cp mod 64)
  else if N.ltb cp 65536 then
    byte (224 + cp / 4096) +:+ byte (128 + (cp / 64) mod 64)
    +:+ byte (128 + cp mod 64)
  else
    byte (240 + cp / 262144) +:+ byte (128 + (cp / 4096) mod 64)
    +:+ byte (128 + (cp / 64) mod 64) +:+ byte (128 + cp mod 64).

(** The code point of an escape [u] whose digits are read: a high
    surrogate joins the low surrogate escaped next, if there is one. *)
Definition escaped_code_point (u : N) (rest : string) : N * string :=
  if (N.leb 55296 u && N.leb u 56319)%bool then
    match rest with
    | String b (String c r) =>
        if (Ascii.eqb b backslash && Ascii.eqb c "u")%bool then
          match hex4 r with
          | Some (v, r') =>
              if (N.leb 56320 v && N.leb v 57343)%bool
              then ((65536 + (u - 55296) * 1024 + (v - 56320))%N, r')
              else (u, rest)
          | None => (u, rest)
          end
        else (u, rest)
    | _ => (u, rest)
    end
  else (u, rest).

(** The characters of a string literal up to its closing quote, the
    opening quote being consumed already. *)
Fixpoint str_body (fuel : nat) (s : string) : option (string * string) :=
  match fuel with
  | O => None
  | S fuel' =>
      match s with
      | EmptyString => None
      | String c r =>
          if Ascii.eqb c dq then Some (EmptyString, r)
          else if Ascii.eqb c backslash then
            match r with
            | String e r' =>
                if Ascii.eqb e "u" then
                  match hex4 r' with
                  | Some (u, r'') =>
                      let (cp, rest) := escaped_code_point u r'' in
                      match str_body fuel' rest with
                      | Some (body, rest') =>
                          Some (utf8_encode cp +:+ body, rest')
                      | None => None
                      end
                  | None => None
                  end
                else
                  match unescape e, str_body fuel' r' with
                  | Some c', Some (body, rest) => Some (String c' body, rest)
                  | _, _ => None
                  end
            | EmptyString => None
            end
          else if N.ltb (N_of_ascii c) 32 then None
          else
            match str_body fuel' r with
            | Some (body, rest) => Some (String c body, rest)
            | None => None
            end
      end
  end.

Definition str_literal (s : string) : option (string * string) :=
  str_body (S (String.length s)) s.

(** The digits [s] begins with, and the rest. *)
Fixpoint span_digits (s : string) : string * string :=
  match s with
  | String c r =>
      if PyStr.is_digit c
      then let (ds, rest) := span_digits r in (String c ds, rest)
      else (EmptyString, s)
  | EmptyString => (EmptyString, s)
  end.

Fixpoint decimal (ds : string) (acc : Z) : Z :=
  match ds with
  | String c r => decimal r (10 * acc + Z.of_N (N_of_ascii c - 48))
  | EmptyString => acc
  end.

(** The integer part of a number: a single 0, or digits that do not
    begin with 0. *)
Definition int_part (s : string) : option (string * string) :=
  match s with
  | String c r =>
      if Ascii.eqb c "0" then Some ("0", r)
      else if PyStr.is_digit c
      then let (ds, rest) := span_digits r in Some (String c ds, rest)
      else None
  | EmptyString => None
  end.

(** A fraction, if a point and a digit follow. *)
Definition frac_part (s : string) : string * string :=
  match s with
  | String c r =>
      if Ascii.eqb c "." then
        match span_digits r with
        | (EmptyString, _) => (EmptyString, s)
        | (ds, rest) => (String c ds, rest)
        end
      else (EmptyString, s)
  | EmptyString => (EmptyString, s)
  end.

(** An exponent, if the letter, an optional sign and a digit follow. *)
Definition exp_part (s : string) : string * string :=
  match s with
  | String c r =>
      if (Ascii.eqb c "e" || Ascii.eqb c "E")%bool then
        match r with
        | String sg r' =>
            if (Ascii.eqb sg "+" || Ascii.eqb sg "-")%bool then
              match span_digits r' with
              | (EmptyString, _) => (EmptyString, s)
              | (ds, rest) => (String c (String sg ds), rest)
              end
            else
              match span_digits r with
              | (EmptyString, _) => (EmptyString, s)
              | (ds, rest) => (String c ds, rest)
              end
        | EmptyString => (EmptyString, s)
        end
      else (EmptyString, s)
  | EmptyString => (EmptyString, s)
  end.

(** A number: an integer when it has neither fraction nor exponent, a
    float otherwise. *)
Definition number (s : string) : option (json * string) :=
  let (sign, s1) :=
    match s with
    | String c r => if Ascii.eqb c "-" then ("-", r) else (EmptyString, s)
    | EmptyString => (EmptyString, s)
    end in
  match int_part s1 with
  | Some (ds, s2) =>
      let (fr, s3) := frac_part s2 in
      let (ex, s4) := exp_part s3 in
      match fr, ex with
      | EmptyString, EmptyString =>
          Some (JInt (if String.eqb sign "-" then - decimal ds 0
                      else decimal ds 0), s4)
      | _, _ => Some (JFloat (sign +:+ ds +:+ fr +:+ ex), s4)
      end
  | None => None
  end.

(** The three floats that are no numbers of JSON and that the Python
    decoder reads all the same. *)
Definition constant (s : string) : option (json * string) :=
  match strip "NaN" s, strip "Infinity" s, strip "-Infinity" s with
  | Some rest, _, _ => Some (JFloat "NaN", rest)
  | _, Some rest, _ => Some (JFloat "Infinity", rest)
  | _, _, Some rest => Some (JFloat "-Infinity", rest)
  | None, None, None => None
  end.

Fixpoint dict_set (items : list (string * json)) (k : string) (v : json)
    : list (string * json) :=
  match items with
  | [] => [(k, v)]
  | (k', v') :: r =>
      if String.eqb k k' then (k', v) :: r else (k', v') :: dict_set r k v
  end.

Fixpoint value (fuel : nat) (s : string) : option (json * string) :=
  match fuel with
  | O => None
  | S fuel' =>
      match skip_ws s with
      | EmptyString => None
      | String c r as t =>
          if Ascii.eqb c "[" then
            match skip_ws r with
            | String c' r' =>
                if Ascii.eqb c' "]" then Some (JArr [], r')
                else match elements fuel' r with
                     | Some (l, rest) => Some (JArr l, rest)
                     | None => None
                     end
            | EmptyString => None
            end
          else if Ascii.eqb c "{" then
            match skip_ws r with
            | String c' r' =>
                if Ascii.eqb c' "}" then Some (JObj [], r')
                else match members fuel' r [] with
                     | Some (items, rest) => Some (JObj items, rest)
                     | None => None
                     end
            | EmptyString => None
            end
          else if Ascii.eqb c dq then
            match str_literal r with
            | Some (body, rest) => Some (JStr body, rest)
            | None => None
            end
          else
            match strip "null" t, strip "true" t, strip "false" t with
            | Some rest, _, _ => Some (JNull, rest)
            | _, Some rest, _ => Some (JBool true, rest)
            | _, _, Some rest => Some (JBool false, rest)
            | None, None, None =>
                match constant t with
                | Some found => Some found
                | None => number t
                end
            end
      end
  end
with elements (fuel : nat) (s : string) : option (list json * string) :=
  match fuel with
  | O => None
  | S fuel' =>
      match value fuel' s with
      | Some (v, r) =>
          match skip_ws r with
          | String c r' =>
              if Ascii.eqb c "," then
                match elements fuel' r' with
                | Some (vs, rest) => Some (v :: vs, rest)
                | None => None
                end
              else if Ascii.eqb c "]" then Some ([v], r')
              else None
          | EmptyString => None
          end
      | None => None
      end
  end
with members (fuel : nat) (s : string) (acc : list (string * json))
    : option (list (string * json) * string) :=
  match fuel with
  | O => None
  | S fuel' =>
      match skip_ws s with
      | String q r =>
          if Ascii.eqb q dq then
            match str_literal r with
            | Some (k, r1) =>
                match skip_ws r1 with
                | String c r2 =>
                    if Ascii.eqb c ":" then
                      match value fuel' r2 with
                      | Some (v, r3) =>
                          match skip_ws r3 with
                          | String c' r4 =>
                              if Ascii.eqb c' "," then
                                members fuel' r4 (dict_set acc k v)
                              else if Ascii.eqb c' "}" then
                                Some (dict_set acc k v, r4)
                              else None
                          | EmptyString => None
                          end
                      | None => None
                      end
                    else None
                | EmptyString => None
                end
            | None => None
            end
          else None
      | EmptyString => None
      end
  end.

(** The whole text is UTF-8 and one value, white space around it
    allowed. *)
Definition loads (s : string) : option json :=
  if utf8_valid s then
    match value (2 * String.length s + 2) s with
    | Some (v, rest) =>
        match skip_ws rest with
        | EmptyString => Some v
        | String _ _ => None
        end
    | None => None
    end
  else None.

(** JSON text written with the apostrophe in place of the double
    quote. *)
Fixpoint text (s : string) : string :=
  match s with
  | EmptyString => EmptyString
  | String c r => String (if Ascii.eqb c "'" then dq else c) (text r)
  end.

End MiniJson.

(** ** The command line *)

(** The [argparse] namespace: an option that was not given is [None], and
    [--aliases] collects every occurrence, starting from the empty list. *)
Record Namespace : Type := {
  name : option string;
  header : option string;
  metadata_file : option string;
  aliases : list string;
  depfile : option string;
  outfile : option string
}.

Definition defaults : Namespace :=
  {| name := None; header := None; metadata_file := None; aliases := [];
     depfile := None; outfile := None |}.

(** One [--flag value] pair stored into the namespace; no option of the
    parser is declared [required]. *)
Definition store (flag value : string) (ns : Namespace) : option Namespace :=
  if String.eqb flag "--name" then
    Some {| name := Some value; header := header ns;
            metadata_file := metadata_file ns; aliases := aliases ns;
            depfile := depfile ns; outfile := outfile ns |}
  else if String.eqb flag "--header" then
    Some {| name := name ns; header := Some value;
            metadata_file := metadata_file ns; aliases := aliases ns;
            depfile := depfile ns; outfile := outfile ns |}
  else if String.eqb flag "--metadata-file" then
    Some {| name := name ns; header := header ns;
            metadata_file := Some value; aliases := aliases ns;
            depfile := depfile ns; outfile := outfile ns |}
  else if String.eqb flag "--aliases" then
    Some {| name := name ns; header := header ns;
            metadata_file := metadata_file ns;
            aliases := aliases ns ++ [value];
            depfile := depfile ns; outfile := outfile ns |}
  else if String.eqb flag "--depfile" then
    Some {| name := name ns; header := header ns;
            metadata_file := metadata_file ns; aliases := aliases ns;
            depfile := Some value; outfile := outfile ns |}
  else if String.eqb flag "--outfile" then
    Some {| name := name ns; header := header ns;
            metadata_file := metadata_file ns; aliases := aliases ns;
            depfile := depfile ns; outfile := Some value |}
  else None.

(** [parser.parse_args()] on argument vectors spelled [--flag value ...]
    with the full option names: each pair is stored, a flag without a
    value or an unknown flag is a usage error (status 2), and [--help]
    leaves with status 0.  The other spellings [argparse] accepts
    (abbreviated names, [--flag=value], a value that begins with a dash)
    are outside this embedding: it answers [SystemExit] for them, and
    nothing below is concluded from such an answer. *)
Fixpoint parse_from (argv : list string) (ns : Namespace) : outcome Namespace :=
  match argv with
  | [] => Return ns
  | flag :: more =>
      if (String.eqb flag "--help" || String.eqb flag "-h")%bool
      then Raise (SystemExit 0)
      else
        match more with
        | [] => Raise (SystemExit 2)
        | value :: rest =>
            if String.prefix "-" value then Raise (SystemExit 2)
            else
              match store flag value ns with
              | Some ns' => parse_from rest ns'
              | None => Raise (SystemExit 2)
              end
        end
  end.

Definition parse_args (argv : list string) : outcome Namespace :=
  parse_from argv defaults.

(** ** The templates *)

Definition STUB_CONTENTS : string :=
"// Copyright $year The Fuchsia Authors
//
// Use of this source code is governed by a MIT-style
// license that can be found in the LICENSE file or at
// https://opensource.org/licenses/MIT

// GENERATED BY //zircon/kernel/lib/code-patching/hermetic-stub.py.
// DO NOT EDIT.

#include <lib/arch/asm.h>
#include <lib/code-patching/asm.h>
#include <$header>  // Defines $case_id.

.text

.function $function_name, global
  .code_patching.blob $size, $case_id
.end_function
".

Definition ALIAS : string :=
"
.weak $alias
.hidden $alias
$alias = $function_name
".

(** ** The script *)

Section Script.

Context {the_paths : Paths} {the_case : PyStr.Upper}.

(** [json.loads]: the decoder of the Python library, [None] when it
    raises on text that is not JSON. *)
Variable json_loads : string -> option json.

(** [json.load(f)] on the text read from [f].  The bytes of the file are
    decoded on the way; [JSONDecodeError] stands for the error of either
    decoding, both of which are [ValueError]s in Python. *)
Definition json_load (text : string) : M json :=
  match json_loads text with
  | Some v => ret v
  | None => raise JSONDecodeError
  end.

(** The loop over the metadata entries, from the state [max_size],
    [alternatives] it has reached. *)
Fixpoint scan_entries (entries : list json) (max_size : Z)
    (alternatives : list json) : M (Z * list json) :=
  match entries with
  | [] => ret (max_size, alternatives)
  | entry :: rest =>
      alternative <- lift (Py.getitem entry "path") ;;
      size <- IO.getsize alternative ;;
      scan_entries rest (Z.max max_size size) (alternatives ++ [alternative])
  end.

(** ["%s: %s\n" % (args.outfile, " ".join(sorted(alternatives)))]:
    [sorted] raises on a list that mixes strings and integers, and
    [join] on any item that is no string. *)
Definition depfile_line (out : option string) (alternatives : list json)
    : outcome string :=
  match Py.all_str alternatives with
  | Some paths =>
      Return (PyStr.str_opt out +:+ ": "
              +:+ PyStr.join " " (PyStr.sorted paths) +:+ nl)
  | None => Raise TypeError
  end.

Definition write_depfile (args : Namespace) (alternatives : list json)
    : M unit :=
  f <- IO.open_w (depfile args) ;;
  line <- lift (depfile_line (outfile args) alternatives) ;;
  IO.write f line.

(** ["CASE_ID_%s" % args.name.upper()]: [None] has no [upper]. *)
Definition case_id (name : option string) : outcome string :=
  match name with
  | Some n => Return ("CASE_ID_" +:+ PyStr.upper n)
  | None => Raise AttributeError
  end.

Fixpoint write_aliases (stub : string) (aliases : list string)
    (name : option string) : M unit :=
  match aliases with
  | [] => ret tt
  | alias :: rest =>
      text <- lift (Template.substitute ALIAS
                      [("alias", alias);
                       ("function_name", PyStr.str_opt name)]) ;;
      IO.write stub text ;;;
      write_aliases stub rest name
  end.

Definition write_stub (args : Namespace) (max_size : Z) : M unit :=
  stub <- IO.open_w (outfile args) ;;
  y <- IO.today_year ;;
  cid <- lift (case_id (name args)) ;;
  text <- lift (Template.substitute STUB_CONTENTS
                  [("year", PyStr.str_int y);
                   ("header", PyStr.str_opt (header args));
                   ("function_name", PyStr.str_opt (name args));
                   ("case_id", cid);
                   ("size", PyStr.str_int max_size)]) ;;
  IO.write stub text ;;;
  write_aliases stub (aliases args) (name args).

(** The metadata file decoded, and the loop run over it. *)
Definition load_metadata (args : Namespace) : M (Z * list json) :=
  text <- IO.read_text (metadata_file args) ;;
  metadata <- json_load text ;;
  entries <- lift (Py.iterate metadata) ;;
  scan_entries entries 0 [].

(** [main] after [parse_args]. *)
Definition main_args (args : Namespace) : M unit :=
  r <- load_metadata args ;;
  write_depfile args (snd r) ;;;
  write_stub args (fst r).

Definition main (argv : list string) : M unit :=
  args <- lift (parse_args argv) ;;
  main_args args.

(** *** Invocations *)

(** The [path] value of a metadata entry, when it is a string. *)
Definition path_of (entry : json) : option string :=
  match Py.getitem entry "path" with
  | Return (JStr p) => Some p
  | _ => None
  end.

(** The [path] values of the entries, when each has one. *)
Fixpoint listed_paths (entries : list json) : option (list string) :=
  match entries with
  | [] => Some []
  | e :: r =>
      match path_of e, listed_paths r with
      | Some p, Some ps => Some (p :: ps)
      | _, _ => None
      end
  end.

(** The metadata file of the invocation is a readable file that decodes
    to an array of entries whose [path] values are [paths]. *)
Definition metadata_lists (args : Namespace) (w : world)
    (paths : list string) : Prop :=
  exists m n entries,
    metadata_file args = Some m /\
    file_at w m = Some n /\ readable n = true /\
    json_loads (data n) = Some (JArr entries) /\
    listed_paths entries = Some paths.

(** A valid invocation: function name [f], dependency file [d] and stub
    file [o] are given, both outputs can be opened for writing, and the
    metadata lists [paths], each naming a file that exists. *)
Record valid (args : Namespace) (w : world) (f d o : string)
    (paths : list string) : Prop := {
  valid_name : name args = Some f;
  valid_depfile : depfile args = Some d;
  valid_outfile : outfile args = Some o;
  valid_depfile_writable : writable w d = true;
  valid_outfile_writable : writable w o = true;
  valid_metadata : metadata_lists args w paths;
  valid_alternatives : Forall (fun p => is_Some (file_at w p)) paths
}.

(** The ways the metadata of an invocation can be bad: the file is
    missing, or unreadable, or its text is no JSON, or an entry of the
    array names a file that is not on disk. *)
Inductive metadata_failure (args : Namespace) (w : world) : Prop :=
  | metadata_missing m :
      metadata_file args = Some m ->
      file_at w m = None ->
      metadata_failure args w
  | metadata_unreadable m n :
      metadata_file args = Some m ->
      file_at w m = Some n -> readable n = false ->
      metadata_failure args w
  | metadata_malformed m n :
      metadata_file args = Some m ->
      file_at w m = Some n -> readable n = true ->
      json_loads (data n) = None ->
      metadata_failure args w
  | alternative_missing m n entries e p :
      metadata_file args = Some m ->
      file_at w m = Some n -> readable n = true ->
      json_loads (data n) = Some (JArr entries) ->
      e ∈ entries -> path_of e = Some p -> file_at w p = None ->
      metadata_failure args w.

End Script.

(** ** What the outputs are expected to be *)

Section Expected.

Context {the_paths : Paths} {the_case : PyStr.Upper}.

(** The world after the file [p] names was opened for writing and [s]
    written to it. *)
Definition written (w : world) (p s : string) : world :=
  with_files w
    (<[inode p := {| data := s;
                     readable := match file_at w p with
                                 | Some n => readable n
                                 | None => true
                                 end |}]> (files w)).

(** Size on disk of a listed alternative. *)
Definition size (w : world) (p : string) : Z :=
  match size_of w p with Some n => n | None => 0 end.

(** The largest size among [paths], and 0 for none: the running maximum
    of the loop. *)
Definition max_size (w : world) (paths : list string) : Z :=
  fold_left Z.max (map (size w) paths) 0.

(** The parts of the stub file, in the order of the description. *)
Definition license_header (y : string) : string :=
  "// Copyright " +:+ y +:+ " The Fuchsia Authors
//
// Use of this source code is governed by a MIT-style
// license that can be found in the LICENSE file or at
// https://opensource.org/licenses/MIT
".

Definition generated_warning : string :=
"
// GENERATED BY //zircon/kernel/lib/code-patching/hermetic-stub.py.
// DO NOT EDIT.
".

Definition include_asm : string :=
"
#include <lib/arch/asm.h>
".

Definition include_code_patching : string :=
"#include <lib/code-patching/asm.h>
".

Definition include_header (h cid : string) : string :=
  "#include <" +:+ h +:+ ">  // Defines " +:+ cid +:+ ".
".

Definition function_decl (f sz cid : string) : string :=
  "
.text

.function " +:+ f +:+ ", global
  .code_patching.blob " +:+ sz +:+ ", " +:+ cid +:+ "
.end_function
".

Definition stub_text (y h f cid sz : string) : string :=
  license_header y +:+ generated_warning +:+ include_asm
  +:+ include_code_patching +:+ include_header h cid
  +:+ function_decl f sz cid.

(** One alias block: the alias is weak, hidden, and equal to the
    function. *)
Definition alias_block (f a : string) : string :=
  nl +:+ ".weak " +:+ a +:+ nl +:+ ".hidden " +:+ a +:+ nl
  +:+ a +:+ " = " +:+ f +:+ nl.

(** The blocks of the aliases, one after the other. *)
Definition alias_blocks (f : string) (aliases : list string) : string :=
  foldr (fun a rest => alias_block f a +:+ rest) EmptyString aliases.

(** The dependency record for stub file [o] and alternatives [paths]. *)
Definition dep_line (o : string) (paths : list string) : string :=
  o +:+ ": " +:+ PyStr.join " " (PyStr.sorted paths) +:+ nl.

(** Number of newline characters in a text. *)
Fixpoint newlines (s : string) : nat :=
  match s with
  | EmptyString => O
  | String c r =>
      ((if Ascii.eqb c (ascii_of_N 10) then 1 else 0) + newlines r)%nat
  end.

Definition set_aliases (args : Namespace) (al : list string) : Namespace :=
  {| name := name args; header := header args;
     metadata_file := metadata_file args; aliases := al;
     depfile := depfile args; outfile := outfile args |}.

Definition set_name (args : Namespace) (x : option string) : Namespace :=
  {| name := x; header := header args;
     metadata_file := metadata_file args; aliases := aliases args;
     depfile := depfile args; outfile := outfile args |}.

(** ** Two statements put to the test *)

(** The stub phase of a run fails: the metadata was loaded, the dependency
    record written, and then opening or writing the stub raised. *)
Definition stub_phase_fails (json_loads : string -> option json)
    (args : Namespace) (w : world) : Prop :=
  exists r w0 w1 w2 e,
    load_metadata json_loads args w = (w0, Return r) /\
    write_depfile args r.2 w0 = (w1, Return tt) /\
    write_stub args r.1 w1 = (w2, Raise e).

(** The run wrote the complete dependency record before it opened the
    stub, and leaves it behind. *)
Definition depfile_left_complete (json_loads : string -> option json)
    (args : Namespace) (w : world) : Prop :=
  exists d r w0 w1 line,
    depfile args = Some d /\
    load_metadata json_loads args w = (w0, Return r) /\
    depfile_line (outfile args) r.2 = Return line /\
    write_depfile args r.2 w0 = (w1, Return tt) /\
    contents w1 d = Some line /\
    contents (main_args json_loads args w).1 d = Some line.

(** What a file can hold after a run that wrote no stub text: what it
    held before, nothing, or the dependency record. *)
Definition without_stub_text (args : Namespace) (w w' : world) : Prop :=
  forall p,
    contents w' p = contents w p \/
    contents w' p = Some EmptyString \/
    exists alternatives line,
      depfile_line (outfile args) alternatives = Return line /\
      contents w' p = Some line.

(** "Whenever the stub phase fails, the complete dependency record is
    left behind." *)
Definition depfile_survives_stub_failure : Prop :=
  forall json_loads args w,
    stub_phase_fails json_loads args w ->
    depfile_left_complete json_loads args w.

(** "An invocation without the name option is rejected as invalid and
    produces no output file." *)
Definition name_is_required : Prop :=
  forall json_loads argv w,
    "--name" ∉ argv ->
    exists code, main json_loads argv w = (w, Raise (SystemExit code)).

(** "For every valid invocation the dependency file is the single line
    of the stub file's name, a colon, and the listed paths in ascending
    order, ended by a newline." *)
Definition depfile_is_sorted_record : Prop :=
  forall json_loads args w f d o paths,
    valid json_loads args w f d o paths ->
    exists w' sorted_paths,
      main_args json_loads args w = (w', Return tt) /\
      contents w' d
      = Some (o +:+ ": " +:+ PyStr.join " " sorted_paths +:+ nl) /\
      newlines (o +:+ ": " +:+ PyStr.join " " sorted_paths +:+ nl) = 1%nat /\
      StronglySorted String.le sorted_paths /\
      sorted_paths ≡ₚ paths.

(** ** Further notions *)

(** The command line that spells a namespace, option by option. *)
Definition option_args (flag : string) (o : option string) : list string :=
  match o with
  | Some v => [flag; v]
  | None => []
  end.

Definition unparse (ns : Namespace) : list string :=
  (option_args "--name" (name ns)
   ++ option_args "--header" (header ns)
   ++ option_args "--metadata-file" (metadata_file ns)
   ++ flat_map (fun a => ["--aliases"; a]) (aliases ns)
   ++ option_args "--depfile" (depfile ns)
   ++ option_args "--outfile" (outfile ns))%list.

(** A value that does not begin with a dash. *)
Definition plain (v : string) : Prop := String.prefix "-" v = false.

Definition plain_opt (o : option string) : Prop :=
  match o with
  | Some v => plain v
  | None => True
  end.

(** Every value of the namespace is plain. *)
Definition plain_namespace (ns : Namespace) : Prop :=
  plain_opt (name ns) /\ plain_opt (header ns) /\
  plain_opt (metadata_file ns) /\ Forall plain (aliases ns) /\
  plain_opt (depfile ns) /\ plain_opt (outfile ns).

Definition set_metadata_file (args : Namespace) (m : string) : Namespace :=
  {| name := name args; header := header args;
     metadata_file := Some m; aliases := aliases args;
     depfile := depfile args; outfile := outfile args |}.

(** What one round of the loop does with an entry. *)
Definition visit (entry : json) : M Z :=
  alternative <- lift (Py.getitem entry "path") ;;
  IO.getsize alternative.

(** The [path] value of an entry, of any type. *)
Definition path_value (entry : json) : option json :=
  match Py.getitem entry "path" with
  | Return v => Some v
  | Raise _ => None
  end.

Fixpoint path_values (entries : list json) : option (list json) :=
  match entries with
  | [] => Some []
  | e :: r =>
      match path_value e, path_values r with
      | Some v, Some vs => Some (v :: vs)
      | _, _ => None
      end
  end.

(** [os.path.getsize] answers for the value. *)
Definition has_size (w : world) (v : json) : Prop :=
  exists sz, IO.getsize v w = (w, Return sz).

(** Its size, 0 standing in when there is none. *)
Definition value_size (w : world) (v : json) : Z :=
  match (IO.getsize v w).2 with
  | Return n => n
  | Raise _ => 0
  end.

(** The metadata file of the invocation is a readable file that decodes
    to [v]. *)
Definition metadata_decodes (json_loads : string -> option json)
    (args : Namespace) (w : world) (v : json) : Prop :=
  exists m n,
    metadata_file args = Some m /\
    file_at w m = Some n /\ readable n = true /\
    json_loads (data n) = Some v.

(** What makes a run come to its end: like [valid], with any decoded
    value the loop can run over in place of the array. *)
Record accepted (json_loads : string -> option json) (args : Namespace)
    (w : world) (f d o : string) (paths : list string) : Prop := {
  accepted_name : name args = Some f;
  accepted_depfile : depfile args = Some d;
  accepted_outfile : outfile args = Some o;
  accepted_depfile_writable : writable w d = true;
  accepted_outfile_writable : writable w o = true;
  accepted_metadata :
    exists v entries,
      metadata_decodes json_loads args w v /\
      Py.iterate v = Return entries /\
      listed_paths entries = Some paths;
  accepted_alternatives : Forall (fun p => is_Some (file_at w p)) paths
}.

(** The world a run that comes to its end leaves. *)
Definition outputs (args : Namespace) (w : world) (f d o : string)
    (paths : list string) : world :=
  written (written w d (dep_line o paths)) o
    (stub_text (PyStr.str_int (year (today w)))
       (PyStr.str_opt (header args)) f
       ("CASE_ID_" +:+ PyStr.upper f)
       (PyStr.str_int (max_size w paths))
     +:+ alias_blocks f (aliases args)).

(** Decoded metadata the loop cannot get through: a value that is not
    iterable, or an object or a string that is not empty (its keys, its
    characters, are strings, which have no [path]). *)
Definition top_level_rejected (v : json) : bool :=
  match v with
  | JArr _ => false
  | JObj [] => false
  | JStr EmptyString => false
  | _ => true
  end.

End Expected.

(** ** Concrete runs *)

Module Scenario.

(** Paths are relative to one directory without links; a leading [./] is
    the only thing that makes two of them name one file. *)
Definition paths : Paths :=
  fun p =>
    match MiniJson.strip "./" p with
    | Some r => r
    | None => p
    end.

Definition file (s : string) : node := {| data := s; readable := true |}.

Definition march_9 : date := {| year := 2021; month := 3; day := 9 |}.

Definition ten : string := "0123456789".
Definition thirty : string := "012345678901234567890123456789".

(** Two alternatives of 10 and 30 bytes, and metadata files that list
    them, list nothing, are no JSON, list a file that is not there, or
    cannot be read. *)
Definition disk : world :=
  {| files :=
       {[ "m.json" := file (MiniJson.text "[{'path': 'b.S'}, {'path': 'a.S'}]");
          "a.S" := file ten;
          "b.S" := file thirty;
          "empty.json" := file "[]";
          "bad.json" := file "[{";
          "lost.json" := file (MiniJson.text "[{'path': 'a.S'}, {'path': 'gone.S'}]");
          "secret.json" := {| data := "[]"; readable := false |} ]};
     open_error := fun _ => None;
     absent_error := fun _ => FileNotFoundError;
     fd_size := fun _ => Raise OSError;
     today := march_9 |}.

(** The same inputs on another disk: the alternatives have other bytes
    of the same number, and the stub file exists already. *)
Definition other_disk : world :=
  {| files :=
       {[ "m.json" := file (MiniJson.text "[{'path': 'b.S'}, {'path': 'a.S'}]");
          "a.S" := file "abcdefghij";
          "b.S" := file "abcdefghijabcdefghijabcdefghij";
          "out.S" := file "stale" ]};
     open_error := fun _ => None;
     absent_error := fun _ => FileNotFoundError;
     fd_size := fun _ => Raise OSError;
     today := march_9 |}.

Definition args : Namespace :=
  {| name := Some "foo"; header := Some "lib/case-id.h";
     metadata_file := Some "m.json"; aliases := ["bar"; "baz"];
     depfile := Some "out.d"; outfile := Some "out.S" |}.

Definition with_metadata (m : string) : Namespace :=
  {| name := Some "foo"; header := Some "lib/case-id.h";
     metadata_file := Some m; aliases := ["bar"; "baz"];
     depfile := Some "out.d"; outfile := Some "out.S" |}.

(** The command line without [--name]. *)
Definition argv_no_name : list string :=
  ["--header"; "lib/case-id.h"; "--metadata-file"; "m.json";
   "--depfile"; "out.d"; "--outfile"; "out.S"].

(** No name, and one path for both outputs. *)
Definition args_one_output : Namespace :=
  {| name := None; header := Some "lib/case-id.h";
     metadata_file := Some "m.json"; aliases := [];
     depfile := Some "out.d"; outfile := Some "out.d" |}.

(** No name, and two paths for one output file. *)
Definition args_two_names : Namespace :=
  {| name := None; header := Some "lib/case-id.h";
     metadata_file := Some "m.json"; aliases := [];
     depfile := Some "out.d"; outfile := Some "./out.d" |}.

(** A name, and one path for both outputs. *)
Definition args_shared_output : Namespace :=
  {| name := Some "foo"; header := Some "lib/case-id.h";
     metadata_file := Some "m.json"; aliases := [];
     depfile := Some "out.d"; outfile := Some "out.d" |}.

(** No name, two outputs. *)
Definition args_no_name : Namespace :=
  {| name := None; header := Some "lib/case-id.h";
     metadata_file := Some "m.json"; aliases := [];
     depfile := Some "out.d"; outfile := Some "out.S" |}.

End Scenario.

(** ** Runs at the edges *)

Module Edge.

Definition file (s : string) : node := {| data := s; readable := true |}.

(** Descriptor 0 is open, on something of no size. *)
Definition disk : world :=
  {| files :=
       {[ "m.json" := file (MiniJson.text "[{'path': 'b.S'}, {'path': 'a.S'}]");
          "rev.json" := file (MiniJson.text "[{'path': 'a.S'}, {'path': 'b.S'}]");
          "one.json" := file (MiniJson.text "[{'path': 'a.S'}]");
          "a.S" := file "0123456789";
          "b.S" := file "012345678901234567890123456789";
          "nokey.json" := file (MiniJson.text "[{'path': 'a.S'}, {'size': 3}, {'path': 'gone.S'}]");
          "notobj.json" := file (MiniJson.text "[{'path': 'a.S'}, 'b.S']");
          "lost.json" := file (MiniJson.text "[{'path': 'a.S'}, {'path': 'gone.S'}, 7]");
          "number.json" := file "7";
          "object.json" := file (MiniJson.text "{'path': 'a.S'}");
          "emptyobj.json" := file "{}";
          "fd.json" := file (MiniJson.text "[{'path': 'a.S'}, {'path': 0}]") ]};
     open_error :=
       fun p => if String.prefix "/ro/" p then Some PermissionError else None;
     absent_error := fun _ => FileNotFoundError;
     fd_size := fun n => if Z.eqb n 0 then Return 0 else Raise OSError;
     today := {| year := 2024; month := 2; day := 29 |} |}.

Definition args (m : string) : Namespace :=
  {| name := Some "foo"; header := Some "lib/case-id.h";
     metadata_file := Some m; aliases := ["bar"];
     depfile := Some "out.d"; outfile := Some "out.S" |}.

Definition args_no_header : Namespace :=
  {| name := Some "foo"; header := None;
     metadata_file := Some "m.json"; aliases := [];
     depfile := Some "out.d"; outfile := Some "out.S" |}.

Definition args_no_outfile : Namespace :=
  {| name := Some "foo"; header := Some "lib/case-id.h";
     metadata_file := Some "m.json"; aliases := [];
     depfile := Some "out.d"; outfile := None |}.

Definition args_no_depfile : Namespace :=
  {| name := Some "foo"; header := Some "lib/case-id.h";
     metadata_file := Some "m.json"; aliases := [];
     depfile := None; outfile := Some "out.S" |}.

Definition args_readonly_depfile : Namespace :=
  {| name := Some "foo"; header := Some "lib/case-id.h";
     metadata_file := Some "m.json"; aliases := [];
     depfile := Some "/ro/out.d"; outfile := Some "out.S" |}.

End Edge.

(** * Properties *)

(** ** Strings *)

Lemma app_cons_s (c : ascii) (a b : string) :
  String c a +:+ b = String c (a +:+ b).
Proof. reflexivity. Qed.

Lemma app_assoc_s (a b c : string) : (a +:+ b) +:+ c = a +:+ (b +:+ c).
Proof.
  induction a as [|x a IH]; [reflexivity|].
  rewrite !app_cons_s. by rewrite IH.
Qed.

Lemma app_nil_r_s (a : string) : a +:+ EmptyString = a.
Proof.
  induction a as [|x a IH]; [reflexivity|].
  rewrite app_cons_s. by rewrite IH.
Qed.

(** ** The templates rendered *)

Lemma substitute_STUB_CONTENTS (y h f cid sz : string) :
  Template.substitute STUB_CONTENTS
    [("year", y); ("header", h); ("function_name", f); ("case_id", cid);
     ("size", sz)]
  = Return (stub_text y h f cid sz).
Proof.
  unfold stub_text, license_header, generated_warning, include_asm,
    include_code_patching, include_header, function_decl.
  rewrite !app_assoc_s. reflexivity.
Qed.

Lemma substitute_ALIAS (a f : string) :
  Template.substitute ALIAS [("alias", a); ("function_name", f)]
  = Return (alias_block f a).
Proof. reflexivity. Qed.

(** ** Computations *)

Lemma bind_Return {A B} (m : M A) (k : A -> M B) w w' a :
  m w = (w', Return a) -> bind m k w = k a w'.
Proof. intros H. unfold bind. by rewrite H. Qed.

Lemma bind_Raise {A B} (m : M A) (k : A -> M B) w w' e :
  m w = (w', Raise e) -> bind m k w = (w', Raise e).
Proof. intros H. unfold bind. by rewrite H. Qed.

Lemma bind_lift {A B} (o : outcome A) (k : A -> M B) w :
  bind (lift o) k w
  = match o with Return a => k a w | Raise e => (w, Raise e) end.
Proof. by destruct o. Qed.

(** One step of a computation whose first action is known to return, or
    to raise. *)
Tactic Notation "returns" open_constr(H) :=
  rewrite (bind_Return _ _ _ _ _ H).
Tactic Notation "returns" open_constr(H) "in" hyp(X) :=
  rewrite (bind_Return _ _ _ _ _ H) in X.
Tactic Notation "raises" open_constr(H) :=
  rewrite (bind_Raise _ _ _ _ _ H).
Tactic Notation "raises" open_constr(H) "in" hyp(X) :=
  rewrite (bind_Raise _ _ _ _ _ H) in X.

Section General.

Context {the_paths : Paths} {the_case : PyStr.Upper}.

(** ** Files written *)



Lemma file_at_written_ne w p q s :
  ~ same_file p q -> file_at (written w p s) q = file_at w q.
Proof.
  intros H. unfold file_at, written. simpl. by rewrite lookup_insert_ne.
Qed.



Lemma contents_written_eq w p s : contents (written w p s) p = Some s.
Proof.
  unfold contents, file_at, written; simpl. by rewrite lookup_insert_eq.
Qed.

Lemma contents_same_file w p q :
  same_file p q -> contents w p = contents w q.
Proof. intros H. unfold contents, file_at. by rewrite H. Qed.

Lemma contents_written_ne w p q s :
  ~ same_file p q -> contents (written w p s) q = contents w q.
Proof.
  intros H. unfold contents. by rewrite file_at_written_ne.
Qed.

Lemma writable_written w p s q :
  writable (written w p s) q = writable w q.
Proof. reflexivity. Qed.

Lemma today_written w p s : today (written w p s) = today w.
Proof. reflexivity. Qed.

Lemma writable_open_error w p :
  writable w p = true -> open_error w p = None.
Proof. unfold writable. by destruct (open_error w p). Qed.

Lemma open_w_ok w p :
  writable w p = true ->
  IO.open_w (Some p) w = (written w p EmptyString, Return (inode p)).
Proof.
  intros H. unfold IO.open_w. by rewrite (writable_open_error _ _ H).
Qed.

Lemma open_w_denied w p e :
  open_error w p = Some e -> IO.open_w (Some p) w = (w, Raise e).
Proof. intros H. unfold IO.open_w. by rewrite H. Qed.

Lemma not_writable w p :
  writable w p = false -> exists e, open_error w p = Some e.
Proof.
  unfold writable. destruct (open_error w p) as [e|]; [by exists e | done].
Qed.

Lemma write_written w p s t :
  IO.write (inode p) t (written w p s)
  = (written w p (s +:+ t), Return tt).
Proof.
  unfold IO.write. f_equal.
  unfold written, with_files, file_at; simpl. f_equal.
  apply map_eq. intros q. destruct (decide (inode p = q)) as [<-|Hne].
  - by rewrite lookup_alter_eq, !lookup_insert_eq.
  - by rewrite lookup_alter_ne, !lookup_insert_ne.
Qed.

(** ** The phases of the script *)

Lemma all_str_map_JStr (paths : list string) :
  Py.all_str (map JStr paths) = Some paths.
Proof. induction paths as [|p ps IH]; simpl; [done | by rewrite IH]. Qed.

Lemma path_of_getitem e p :
  path_of e = Some p -> Py.getitem e "path" = Return (JStr p).
Proof.
  unfold path_of. destruct (Py.getitem e "path") as [[]|]; congruence.
Qed.

Lemma getsize_found w p :
  is_Some (file_at w p) -> IO.getsize (JStr p) w = (w, Return (size w p)).
Proof.
  intros [n Hn]. unfold IO.getsize, size, size_of. by rewrite Hn.
Qed.

Lemma getsize_missing w p :
  file_at w p = None ->
  IO.getsize (JStr p) w = (w, Raise (absent_error w p)).
Proof. intros Hn. unfold IO.getsize, size_of. by rewrite Hn. Qed.

Lemma getsize_world v w : (IO.getsize v w).1 = w.
Proof.
  destruct v; simpl; try done.
  by destruct (size_of w _).
Qed.

(** The loop reads the world and leaves it as it is. *)
Lemma scan_entries_world entries : forall m a w,
  (scan_entries entries m a w).1 = w.
Proof.
  induction entries as [|e r IH]; intros m a w; simpl; [done|].
  rewrite bind_lift. destruct (Py.getitem e "path") as [v|]; [|done].
  unfold bind. pose proof (getsize_world v w) as Hw.
  destruct (IO.getsize v w) as [w' [sz|x]]; simpl in Hw; subst w'; [|done].
  apply IH.
Qed.

Lemma scan_entries_ok entries : forall paths m a w,
  listed_paths entries = Some paths ->
  Forall (fun p => is_Some (file_at w p)) paths ->
  scan_entries entries m a w
  = (w, Return (fold_left Z.max (map (size w) paths) m,
             (a ++ map JStr paths)%list)).
Proof.
  induction entries as [|e r IH]; intros paths m a w Hl Hex; simpl in *.
  - injection Hl as <-. simpl. by rewrite app_nil_r.
  - destruct (path_of e) as [p|] eqn:Hp; [|done].
    destruct (listed_paths r) as [ps|] eqn:Hr; [|done].
    injection Hl as <-. apply Forall_cons in Hex as [Hp1 Hps].
    rewrite bind_lift, (path_of_getitem _ _ Hp).
    returns (getsize_found _ _ Hp1).
    rewrite (IH ps _ _ _ eq_refl Hps). simpl.
    by rewrite <- app_assoc.
Qed.

(** An entry that names a missing file stops the loop with an exception,
    raised at that entry or at an earlier one. *)
Lemma scan_entries_missing entries : forall e p m a w,
  e ∈ entries -> path_of e = Some p -> file_at w p = None ->
  raised (scan_entries entries m a w).2.
Proof.
  induction entries as [|e' r IH]; intros e p m a w Hin Hp Hm.
  - by apply elem_of_nil in Hin.
  - simpl. rewrite bind_lift.
    destruct (Py.getitem e' "path") as [v|] eqn:Hg; [|done].
    unfold bind. pose proof (getsize_world v w) as Hw.
    destruct (IO.getsize v w) as [w' [sz|x]] eqn:Hs; simpl in Hw; subst w';
      [|done].
    apply elem_of_cons in Hin as [->|Hin]; [|by eapply IH].
    rewrite (path_of_getitem _ _ Hp) in Hg. injection Hg as <-.
    rewrite (getsize_missing _ _ Hm) in Hs. discriminate.
Qed.

Section ScriptProofs.

Variable json_loads : string -> option json.

Lemma load_metadata_world args w : (load_metadata json_loads args w).1 = w.
Proof.
  unfold load_metadata, bind, IO.read_text, json_load.
  destruct (metadata_file args) as [m|]; [|done].
  destruct (file_at w m) as [n|]; [|done].
  destruct (readable n); [|done].
  destruct (json_loads (data n)) as [v|]; [|done].
  simpl. destruct (Py.iterate v) as [es|]; [|done].
  apply scan_entries_world.
Qed.

Lemma load_metadata_ok args w paths :
  metadata_lists json_loads args w paths ->
  Forall (fun p => is_Some (file_at w p)) paths ->
  load_metadata json_loads args w
  = (w, Return (max_size w paths, map JStr paths)).
Proof.
  intros (m & n & entries & Hm & Hn & Hr & Hj & Hl) Hex.
  unfold load_metadata, bind, IO.read_text, json_load.
  rewrite Hm, Hn, Hr, Hj. simpl.
  by rewrite (scan_entries_ok _ _ _ _ _ Hl Hex).
Qed.

Lemma load_metadata_failure args w :
  metadata_failure json_loads args w ->
  exists e, load_metadata json_loads args w = (w, Raise e).
Proof.
  intros H.
  assert (raised (load_metadata json_loads args w).2) as Hr.
  { unfold load_metadata, bind, IO.read_text, json_load.
    destruct H as [m Hm Hn|m n Hm Hn Hr|m n Hm Hn Hr Hj
                  |m n entries e p Hm Hn Hr Hj Hin Hp Hmiss];
      rewrite Hm, Hn; try rewrite Hr; try rewrite Hj; simpl; try done.
    by eapply scan_entries_missing. }
  pose proof (load_metadata_world args w) as Hw.
  destruct (load_metadata json_loads args w) as [w' [r|e]];
    simpl in *; subst; [done | by exists e].
Qed.

Lemma write_depfile_ok args w d paths :
  depfile args = Some d -> writable w d = true ->
  write_depfile args (map JStr paths) w
  = (written w d (dep_line (PyStr.str_opt (outfile args)) paths), Return tt).
Proof.
  intros Hd Hw. unfold write_depfile. rewrite Hd.
  returns (open_w_ok _ _ Hw).
  unfold depfile_line. rewrite all_str_map_JStr, bind_lift.
  by rewrite write_written.
Qed.

Lemma write_aliases_written aliases : forall w o s nm,
  write_aliases (inode o) aliases nm (written w o s)
  = (written w o (s +:+ alias_blocks (PyStr.str_opt nm) aliases), Return tt).
Proof.
  induction aliases as [|a r IH]; intros w o s nm; simpl.
  - by rewrite app_nil_r_s.
  - rewrite substitute_ALIAS, bind_lift.
    returns (write_written _ _ _ _).
    by rewrite IH, app_assoc_s.
Qed.

Lemma write_stub_ok args w o f sz :
  outfile args = Some o -> writable w o = true -> name args = Some f ->
  write_stub args sz w
  = (written w o
       (stub_text (PyStr.str_int (year (today w)))
          (PyStr.str_opt (header args)) f
          ("CASE_ID_" +:+ PyStr.upper f) (PyStr.str_int sz)
        +:+ alias_blocks f (aliases args)),
     Return tt).
Proof.
  intros Ho Hw Hf. unfold write_stub. rewrite Ho, Hf.
  returns (open_w_ok _ _ Hw).
  unfold IO.today_year at 1. unfold bind at 1.
  simpl case_id. rewrite bind_lift, substitute_STUB_CONTENTS, bind_lift.
  returns (write_written _ _ _ _).
  by rewrite write_aliases_written.
Qed.

Lemma write_stub_no_name args w o sz :
  outfile args = Some o -> writable w o = true -> name args = None ->
  write_stub args sz w = (written w o EmptyString, Raise AttributeError).
Proof.
  intros Ho Hw Hf. unfold write_stub. rewrite Ho, Hf.
  by returns (open_w_ok _ _ Hw).
Qed.

(** A valid invocation runs to its end, and leaves the dependency record
    and then the stub written. *)
Lemma main_args_valid args w f d o paths :
  valid json_loads args w f d o paths ->
  main_args json_loads args w
  = (written
       (written w d (dep_line o paths)) o
       (stub_text (PyStr.str_int (year (today w)))
          (PyStr.str_opt (header args)) f
          ("CASE_ID_" +:+ PyStr.upper f)
          (PyStr.str_int (max_size w paths))
        +:+ alias_blocks f (aliases args)),
     Return tt).
Proof.
  intros [Hf Hd Ho Hwd Hwo Hm Hex]. unfold main_args.
  returns (load_metadata_ok _ _ _ Hm Hex). simpl.
  returns (write_depfile_ok _ _ _ _ Hd Hwd).
  rewrite Ho. simpl.
  by rewrite (write_stub_ok args (written w d _) o f _ Ho Hwo Hf).
Qed.

End ScriptProofs.

(** ** The running maximum *)

Lemma fold_max_spec (l : list Z) : forall m,
  m <= fold_left Z.max l m /\
  Forall (fun x => x <= fold_left Z.max l m) l /\
  (fold_left Z.max l m = m \/ fold_left Z.max l m ∈ l).
Proof.
  induction l as [|x l IH]; intros m; simpl.
  - split; [lia|]. split; [constructor | by left].
  - destruct (IH (Z.max m x)) as (Hle & Hall & Hin).
    split; [lia|]. split.
    + constructor; [lia | done].
    + destruct Hin as [Heq|Hin].
      * destruct (Z.max_spec m x) as [[_ Hm]|[_ Hm]]; rewrite Hm in *.
        -- right. rewrite Heq. by left.
        -- by left.
      * right. by right.
Qed.

Lemma size_nonneg w p : 0 <= size w p.
Proof.
  unfold size, size_of. destruct (file_at w p); simpl; lia.
Qed.

Lemma size_of_found w p :
  is_Some (file_at w p) -> size_of w p = Some (size w p).
Proof. intros [n Hn]. unfold size, size_of. by rewrite Hn. Qed.

(** [max_size] is the maximum in the usual sense: 0 for no alternative,
    otherwise the size of one of them that no other exceeds. *)
Lemma max_size_spec w paths :
  Forall (fun p => is_Some (file_at w p)) paths ->
  (paths = [] -> max_size w paths = 0) /\
  (forall p, p ∈ paths -> size w p <= max_size w paths) /\
  (paths <> [] ->
   exists p, p ∈ paths /\ size_of w p = Some (max_size w paths)).
Proof.
  intros Hex. unfold max_size.
  destruct (fold_max_spec (map (size w) paths) 0) as (Hle & Hall & Hin).
  split; [by intros ->|]. split.
  - intros p Hp. rewrite Forall_forall in Hall. apply Hall.
    apply list_elem_of_fmap. by exists p.
  - intros Hne. destruct Hin as [Heq|Hin].
    + destruct paths as [|p ps]; [done|]. exists p. split; [by left|].
      apply Forall_cons in Hex as [Hp _]. rewrite (size_of_found _ _ Hp).
      f_equal. rewrite Heq. apply Forall_cons in Hall as [Hp0 _].
      rewrite Heq in Hp0. pose proof (size_nonneg w p). lia.
    + apply list_elem_of_fmap in Hin as (p & Heq & Hp). exists p.
      split; [done|]. rewrite Forall_forall in Hex.
      rewrite (size_of_found _ _ (Hex _ Hp)). by rewrite Heq.
Qed.

(** ** Lines *)

Lemma newlines_app (a b : string) :
  newlines (a +:+ b) = (newlines a + newlines b)%nat.
Proof.
  induction a as [|c a IH]; [reflexivity|].
  rewrite app_cons_s. simpl. rewrite IH. lia.
Qed.

Lemma newlines_join (l : list string) :
  Forall (fun p => newlines p = O) l -> newlines (PyStr.join " " l) = O.
Proof.
  unfold PyStr.join. induction l as [|x l IH]; intros H; [reflexivity|].
  apply Forall_cons in H as [Hx Hl]. simpl.
  destruct l as [|y l]; [done|].
  rewrite !newlines_app, Hx, (IH Hl). reflexivity.
Qed.

Lemma sorted_Permutation (l : list string) : PyStr.sorted l ≡ₚ l.
Proof. apply merge_sort_Permutation. Qed.

Lemma sorted_StronglySorted (l : list string) :
  StronglySorted String.le (PyStr.sorted l).
Proof. apply StronglySorted_merge_sort; apply _. Qed.

Lemma newlines_dep_line o paths :
  newlines o = O -> Forall (fun p => newlines p = O) paths ->
  newlines (dep_line o paths) = 1%nat.
Proof.
  intros Ho Hp. unfold dep_line. rewrite !newlines_app, Ho, newlines_join.
  - reflexivity.
  - by rewrite sorted_Permutation.
Qed.

(** ** The claims *)

Section Claims.

Variable json_loads : string -> option json.

(** C1.  For a metadata file holding an array of entries whose [path]
    fields name existing files, the size written into the stub is the
    maximum size on disk among those files: no listed file is larger,
    and one of them has exactly that size; for an empty array it is 0. *)
Theorem stub_size_is_maximum args w f d o paths :
  valid json_loads args w f d o paths ->
  exists w' sz,
    main_args json_loads args w = (w', Return tt) /\
    contents w' o
    = Some (stub_text (PyStr.str_int (year (today w)))
              (PyStr.str_opt (header args)) f
              ("CASE_ID_" +:+ PyStr.upper f) (PyStr.str_int sz)
            +:+ alias_blocks f (aliases args)) /\
    (paths = [] -> sz = 0) /\
    (forall p, p ∈ paths -> size w p <= sz) /\
    (paths <> [] -> exists p, p ∈ paths /\ size_of w p = Some sz).
Proof.
  intros Hv. eexists _, (max_size w paths).
  split; [exact (main_args_valid _ _ _ _ _ _ _ Hv)|].
  split; [apply contents_written_eq|].
  apply max_size_spec, Hv.
Qed.

Lemma valid_set_aliases args w f d o paths al :
  valid json_loads args w f d o paths ->
  valid json_loads (set_aliases args al) w f d o paths.
Proof. intros [Hf Hd Ho Hwd Hwo Hm Hex]. by constructor. Qed.

(** C2.  The case identifier in the stub is [CASE_ID_] followed by the
    function name in upper case - what [str.upper] makes of the name,
    which for a name of ASCII characters is the name with each of the
    letters a to z replaced by its capital -, whatever the alias list is:
    the text before the alias blocks is one and the same for every alias
    list, and the identifier is made of the name alone. *)
Theorem case_id_from_name args w f d o paths :
  valid json_loads args w f d o paths ->
  exists y h sz cid,
    (forall al,
       contents (main_args json_loads (set_aliases args al) w).1 o
       = Some (stub_text y h f cid sz +:+ alias_blocks f al)) /\
    cid = "CASE_ID_" +:+ PyStr.upper f /\
    (PyStr.ascii_text f = true ->
     cid = "CASE_ID_" +:+ PyStr.capitalised f).
Proof.
  intros Hv. eexists _, _, _, _. split; [|split; [reflexivity|]].
  - intros al.
    rewrite (main_args_valid _ _ _ _ _ _ _
               (valid_set_aliases _ _ _ _ _ _ al Hv)).
    simpl. apply contents_written_eq.
  - intros Hascii. by rewrite (PyStr.upper_ascii_text f Hascii).
Qed.

(** C3, as the script has it.  For a valid invocation whose dependency
    file and stub file are two files, the dependency file is the line
    [<outfile>: <paths>] ended by a newline, the paths separated by
    spaces, in ascending lexicographic order, and a rearrangement of the
    [path] values of the metadata; it is a single line when neither the
    stub file's name nor a path holds a newline. *)
Theorem depfile_record args w f d o paths :
  valid json_loads args w f d o paths ->
  ~ same_file d o ->
  exists w' sorted_paths,
    main_args json_loads args w = (w', Return tt) /\
    contents w' d
    = Some (o +:+ ": " +:+ PyStr.join " " sorted_paths +:+ nl) /\
    StronglySorted String.le sorted_paths /\
    sorted_paths ≡ₚ paths /\
    (newlines o = O -> Forall (fun p => newlines p = O) paths ->
     newlines (o +:+ ": " +:+ PyStr.join " " sorted_paths +:+ nl) = 1%nat).
Proof.
  intros Hv Hne. eexists _, (PyStr.sorted paths).
  split; [exact (main_args_valid _ _ _ _ _ _ _ Hv)|].
  split.
  { rewrite contents_written_ne.
    - apply contents_written_eq.
    - intros Hs. apply Hne. by symmetry. }
  split; [apply sorted_StronglySorted|].
  split; [apply sorted_Permutation|].
  apply newlines_dep_line.
Qed.

(** C4.  For every list of aliases, the stub file is the stub written
    for no alias followed by one block per alias, in the order given,
    each block declaring the alias weak, hidden and equal to the
    function name. *)
Theorem alias_blocks_in_order args w f d o paths :
  valid json_loads args w f d o paths ->
  exists body,
    contents (main_args json_loads (set_aliases args []) w).1 o
    = Some body /\
    forall al,
      contents (main_args json_loads (set_aliases args al) w).1 o
      = Some (body
              +:+ foldr (fun a rest =>
                           nl +:+ ".weak " +:+ a +:+ nl
                           +:+ ".hidden " +:+ a +:+ nl
                           +:+ a +:+ " = " +:+ f +:+ nl +:+ rest)
                    EmptyString al).
Proof.
  intros Hv. eexists. split.
  - rewrite (main_args_valid _ _ _ _ _ _ _ (valid_set_aliases _ _ _ _ _ _ [] Hv)).
    simpl. rewrite contents_written_eq. by rewrite app_nil_r_s.
  - intros al.
    rewrite (main_args_valid _ _ _ _ _ _ _ (valid_set_aliases _ _ _ _ _ _ al Hv)).
    simpl. rewrite contents_written_eq. do 2 f_equal.
    induction al as [|a r IH]; [reflexivity|]. simpl. rewrite IH.
    unfold alias_block. by rewrite !app_assoc_s.
Qed.

(** C5.  A missing or unreadable metadata file, metadata that is no
    JSON, or a listed alternative that is not on disk makes the run end
    in an exception: nothing catches it. *)
Theorem bad_metadata_is_fatal args w :
  metadata_failure json_loads args w ->
  exists e, (main_args json_loads args w).2 = Raise e.
Proof.
  intros H. destruct (load_metadata_failure _ _ _ H) as [e He].
  exists e. unfold main_args. by raises He.
Qed.

(** C9.  In each of these cases the exception is raised before an output
    file is opened: the run ends in the file system it started in. *)
Theorem bad_metadata_writes_nothing args w :
  metadata_failure json_loads args w ->
  (main_args json_loads args w).1 = w.
Proof.
  intros H. destruct (load_metadata_failure _ _ _ H) as [e He].
  unfold main_args. by raises He.
Qed.

Lemma valid_same_paths args w1 w2 f d o paths1 paths2 m :
  valid json_loads args w1 f d o paths1 ->
  valid json_loads args w2 f d o paths2 ->
  metadata_file args = Some m ->
  contents w1 m = contents w2 m ->
  paths1 = paths2.
Proof.
  intros [_ _ _ _ _ (m1 & n1 & es1 & Hm1 & Hn1 & _ & Hj1 & Hl1) _].
  intros [_ _ _ _ _ (m2 & n2 & es2 & Hm2 & Hn2 & _ & Hj2 & Hl2) _].
  intros Hm Hc. unfold contents in Hc.
  rewrite Hm in Hm1, Hm2. injection Hm1 as <-. injection Hm2 as <-.
  rewrite Hn1, Hn2 in Hc. simpl in Hc. injection Hc as Hc.
  rewrite Hc in Hj1. rewrite Hj1 in Hj2. injection Hj2 as <-.
  congruence.
Qed.

Lemma max_size_same_sizes w1 w2 paths :
  Forall (fun p => size_of w1 p = size_of w2 p) paths ->
  max_size w1 paths = max_size w2 paths.
Proof.
  intros H. unfold max_size. f_equal.
  induction H as [|p ps Hp _ IH]; [reflexivity|].
  simpl. unfold size at 1 3. by rewrite Hp, IH.
Qed.

Lemma stub_text_year h f cid sz :
  exists post, forall y,
    stub_text y h f cid sz = "// Copyright " +:+ y +:+ post.
Proof.
  eexists. intros y. unfold stub_text, license_header.
  rewrite !app_assoc_s. reflexivity.
Qed.

(** C6.  Two runs on the same arguments, the same metadata text and the
    same sizes of the listed alternatives, on the same day, leave the
    same dependency file and the same stub file; on different days the
    stub files are one text around the year of each run, and the
    dependency files, when they are other files than the stubs, are
    still the same. *)
Theorem same_inputs_same_outputs args w1 w2 f d o paths1 paths2 m :
  valid json_loads args w1 f d o paths1 ->
  valid json_loads args w2 f d o paths2 ->
  metadata_file args = Some m ->
  contents w1 m = contents w2 m ->
  Forall (fun p => size_of w1 p = size_of w2 p) paths1 ->
  let r1 := (main_args json_loads args w1).1 in
  let r2 := (main_args json_loads args w2).1 in
  (today w1 = today w2 ->
   contents r1 d = contents r2 d /\ contents r1 o = contents r2 o) /\
  (~ same_file d o -> contents r1 d = contents r2 d) /\
  exists pre post,
    contents r1 o
    = Some (pre +:+ PyStr.str_int (year (today w1)) +:+ post) /\
    contents r2 o
    = Some (pre +:+ PyStr.str_int (year (today w2)) +:+ post).
Proof.
  intros Hv1 Hv2 Hm Hc Hs r1 r2. subst r1 r2.
  pose proof (valid_same_paths _ _ _ _ _ _ _ _ _ Hv1 Hv2 Hm Hc) as <-.
  rewrite (main_args_valid _ _ _ _ _ _ _ Hv1).
  rewrite (main_args_valid _ _ _ _ _ _ _ Hv2).
  rewrite <- (max_size_same_sizes _ _ _ Hs). simpl.
  assert (~ same_file d o ->
          contents (written (written w1 d (dep_line o paths1)) o
            (stub_text (PyStr.str_int (year (today w1)))
               (PyStr.str_opt (header args)) f
               ("CASE_ID_" +:+ PyStr.upper f)
               (PyStr.str_int (max_size w1 paths1))
             +:+ alias_blocks f (aliases args))) d
          = contents (written (written w2 d (dep_line o paths1)) o
            (stub_text (PyStr.str_int (year (today w2)))
               (PyStr.str_opt (header args)) f
               ("CASE_ID_" +:+ PyStr.upper f)
               (PyStr.str_int (max_size w1 paths1))
             +:+ alias_blocks f (aliases args))) d) as Hdep.
  { intros Hne.
    assert (~ same_file o d) as Hne' by (intros Hod; apply Hne; by symmetry).
    rewrite (contents_written_ne (written w1 d _) o d) by done.
    rewrite (contents_written_ne (written w2 d _) o d) by done.
    by rewrite !contents_written_eq. }
  split; [|split; [exact Hdep|]].
  - intros Ht. rewrite !contents_written_eq, Ht. split; [|done].
    destruct (decide (inode d = inode o)) as [Hsame|Hne].
    + rewrite !(contents_same_file _ d o Hsame).
      by rewrite !contents_written_eq.
    + rewrite Ht in Hdep. by apply Hdep.
  - rewrite !contents_written_eq.
    destruct (stub_text_year (PyStr.str_opt (header args)) f
                ("CASE_ID_" +:+ PyStr.upper f)
                (PyStr.str_int (max_size w1 paths1))) as [post Hpost].
    exists "// Copyright ", (post +:+ alias_blocks f (aliases args)).
    by rewrite !Hpost, !app_assoc_s.
Qed.

(** C7.  The stub of a valid invocation holds, in this order: the
    license header with the year of the run, the warning that the file
    is generated, the include of the assembly header, the include of
    the code-patching header, the include of the header given by the
    caller, the global function whose body is the one patch directive
    with the computed size and the case identifier, and the alias
    blocks. *)
Theorem stub_layout args w f d o paths :
  valid json_loads args w f d o paths ->
  let cid := "CASE_ID_" +:+ PyStr.upper f in
  exists w',
    main_args json_loads args w = (w', Return tt) /\
    contents w' o
    = Some (license_header (PyStr.str_int (year (today w)))
            +:+ generated_warning
            +:+ include_asm
            +:+ include_code_patching
            +:+ include_header (PyStr.str_opt (header args)) cid
            +:+ function_decl f (PyStr.str_int (max_size w paths)) cid
            +:+ alias_blocks f (aliases args)).
Proof.
  intros Hv cid. eexists.
  split; [exact (main_args_valid _ _ _ _ _ _ _ Hv)|].
  rewrite contents_written_eq. unfold stub_text.
  by rewrite !app_assoc_s.
Qed.

End Claims.

(** ** The command line without a name *)

Lemma store_keeps_name flag value ns ns' :
  store flag value ns = Some ns' -> flag <> "--name" -> name ns' = name ns.
Proof.
  unfold store. intros H Hne.
  destruct (String.eqb flag "--name") eqn:E.
  { apply String.eqb_eq in E. contradiction. }
  repeat (match type of H with
          | (if ?b then _ else _) = _ => destruct b
          end; [by injection H as <-|]).
  discriminate.
Qed.

(** Parsing keeps the name it started from when [--name] is not among the
    arguments. *)
Lemma parse_from_keeps_name (n : nat) : forall argv ns args,
  (length argv <= n)%nat ->
  parse_from argv ns = Return args ->
  "--name" ∉ argv ->
  name args = name ns.
Proof.
  induction n as [|n IH]; intros argv ns args Hn Hp Hnot.
  - destruct argv; [|simpl in Hn; lia]. simpl in Hp. congruence.
  - destruct argv as [|flag [|value rest]]; simpl in Hp.
    + congruence.
    + by destruct (_ || _)%bool.
    + destruct (_ || _)%bool; [done|].
      destruct (String.prefix "-" value); [done|].
      destruct (store flag value ns) as [ns'|] eqn:Hs; [|done].
      apply not_elem_of_cons in Hnot as [Hf Hnot].
      apply not_elem_of_cons in Hnot as [_ Hnot].
      rewrite (IH rest ns' args); [| simpl in Hn; lia | done | done].
      by apply (store_keeps_name flag value).
Qed.

Lemma parse_args_no_name argv args :
  parse_args argv = Return args -> "--name" ∉ argv -> name args = None.
Proof.
  intros Hp Hnot.
  by rewrite (parse_from_keeps_name (length argv) argv defaults args).
Qed.

Lemma set_name_name ns x : name (set_name ns x) = x.
Proof. reflexivity. Qed.

Lemma set_name_again ns x y : set_name (set_name ns x) y = set_name ns y.
Proof. reflexivity. Qed.

Lemma set_name_same ns : set_name ns (name ns) = ns.
Proof. by destruct ns. Qed.

Lemma store_set_name flag value ns ns' x :
  store flag value ns = Some ns' -> flag <> "--name" ->
  store flag value (set_name ns x) = Some (set_name ns' x).
Proof.
  unfold store. intros H Hne.
  destruct (String.eqb flag "--name") eqn:E.
  { apply String.eqb_eq in E. contradiction. }
  repeat (match type of H with
          | (if ?b then _ else _) = _ => destruct b
          end; [by injection H as <-|]).
  discriminate.
Qed.

(** Without [--name] among the arguments, the parser does with any name
    what it does with another. *)
Lemma parse_from_set_name (n : nat) : forall argv ns args x,
  (length argv <= n)%nat ->
  parse_from argv ns = Return args ->
  "--name" ∉ argv ->
  parse_from argv (set_name ns x) = Return (set_name args x).
Proof.
  induction n as [|n IH]; intros argv ns args x Hn Hp Hnot.
  - destruct argv; [|simpl in Hn; lia]. simpl in *. congruence.
  - destruct argv as [|flag [|value rest]]; simpl in *.
    + congruence.
    + by destruct (_ || _)%bool.
    + destruct (_ || _)%bool; [done|].
      destruct (String.prefix "-" value); [done|].
      destruct (store flag value ns) as [ns'|] eqn:Hs; [|done].
      apply not_elem_of_cons in Hnot as [Hf Hnot].
      apply not_elem_of_cons in Hnot as [_ Hnot].
      rewrite (store_set_name _ _ _ _ x Hs (not_eq_sym Hf)).
      apply IH; [lia | done | done].
Qed.

(** A command line accepted with [--name] is accepted without it, the
    name being then the one the parser started from. *)
Lemma parse_from_without_name (n : nat) : forall argv1 v argv2 ns args,
  (length argv1 <= n)%nat ->
  parse_from (argv1 ++ "--name" :: v :: argv2) ns = Return args ->
  "--name" ∉ argv1 -> "--name" ∉ argv2 ->
  parse_from (argv1 ++ argv2) ns = Return (set_name args (name ns)).
Proof.
  induction n as [|n IH]; intros argv1 v argv2 ns args Hn Hp Hn1 Hn2.
  - destruct argv1; [|simpl in Hn; lia].
    cbn [app] in *. simpl in Hp.
    destruct (String.prefix "-" v); [done|].
    rewrite <- (set_name_same ns) at 1.
    rewrite <- (set_name_again ns (Some v) (name ns)).
    by apply (parse_from_set_name (length argv2)).
  - destruct argv1 as [|flag [|value rest]].
    + apply (IH [] v argv2 ns args); [simpl; lia | done | done | done].
    + exfalso. simpl in Hp. by destruct (_ || _)%bool.
    + cbn [app] in *. simpl in Hp. simpl.
      destruct (_ || _)%bool; [done|].
      destruct (String.prefix "-" value); [done|].
      destruct (store flag value ns) as [ns'|] eqn:Hs; [|done].
      apply not_elem_of_cons in Hn1 as [Hf Hn1].
      apply not_elem_of_cons in Hn1 as [_ Hn1].
      rewrite <- (store_keeps_name _ _ _ _ Hs (not_eq_sym Hf)).
      apply (IH rest v); [simpl in Hn; lia | done | done | done].
Qed.

Lemma contents_written_cases w q s p :
  contents (written w q s) p = Some s \/
  contents (written w q s) p = contents w p.
Proof.
  destruct (decide (inode q = inode p)) as [Hs|Hne].
  - left. rewrite <- (contents_same_file _ q p Hs).
    apply contents_written_eq.
  - right. by apply contents_written_ne.
Qed.

Section Corrected.

Variable json_loads : string -> option json.

Lemma write_depfile_outcome args alts w :
  (exists e, write_depfile args alts w = (w, Raise e)) \/
  (exists d,
     depfile args = Some d /\
     write_depfile args alts w = (written w d EmptyString, Raise TypeError))
  \/
  (exists d line,
     depfile args = Some d /\
     depfile_line (outfile args) alts = Return line /\
     write_depfile args alts w = (written w d line, Return tt)).
Proof.
  unfold write_depfile.
  destruct (depfile args) as [d|]; [|left; by eexists].
  destruct (open_error w d) as [x|] eqn:Hx.
  { left. exists x. by raises (open_w_denied _ _ _ Hx). }
  assert (writable w d = true) as Hwd by (unfold writable; by rewrite Hx).
  returns (open_w_ok _ _ Hwd). rewrite bind_lift.
  unfold depfile_line.
  destruct (Py.all_str alts) as [paths|].
  - right. right. eexists d, _. split; [done|]. split; [done|].
    by rewrite write_written.
  - right. left. by exists d.
Qed.

Lemma write_stub_no_name_outcome args sz w :
  name args = None ->
  (exists e, write_stub args sz w = (w, Raise e)) \/
  (exists o,
     outfile args = Some o /\ writable w o = true /\
     write_stub args sz w = (written w o EmptyString, Raise AttributeError)).
Proof.
  intros Hn. destruct (outfile args) as [o|] eqn:Ho.
  2:{ left. exists TypeError. unfold write_stub. by rewrite Ho. }
  destruct (open_error w o) as [x|] eqn:Hx.
  { left. exists x. unfold write_stub. rewrite Ho.
    by raises (open_w_denied _ _ _ Hx). }
  assert (writable w o = true) as Hwo by (unfold writable; by rewrite Hx).
  right. exists o. split; [done|]. split; [done|].
  by apply write_stub_no_name.
Qed.

(** Without a name the run ends in an exception, and has written no
    stub text. *)
Lemma main_args_no_name args w :
  name args = None ->
  exists e w',
    main_args json_loads args w = (w', Raise e) /\
    without_stub_text args w w'.
Proof.
  intros Hn. unfold main_args. unfold bind at 1.
  pose proof (load_metadata_world json_loads args w) as Hw.
  destruct (load_metadata json_loads args w) as [w0 [r|e]];
    simpl in Hw; subst w0.
  2:{ exists e, w. split; [done|]. intros p. by left. }
  destruct (write_depfile_outcome args r.2 w)
    as [[e He] | [(d & Hd & He) | (d & line & Hd & Hline & He)]].
  - raises He. exists e, w. split; [done|]. intros p. by left.
  - raises He. eexists _, _. split; [done|]. intros p.
    destruct (contents_written_cases w d EmptyString p) as [-> | ->];
      [right; by left | by left].
  - returns He.
    assert (without_stub_text args w (written w d line)) as H1.
    { intros p.
      destruct (contents_written_cases w d line p) as [-> | ->];
        [right; right; by exists r.2, line | by left]. }
    destruct (write_stub_no_name_outcome args r.1 (written w d line) Hn)
      as [[e Hs] | (o & Ho & Hwo & Hs)]; rewrite Hs.
    + by eexists _, _.
    + eexists _, _. split; [done|]. intros p.
      destruct (contents_written_cases (written w d line) o EmptyString p)
        as [-> | ->]; [right; by left | apply H1].
Qed.

Lemma load_metadata_iterable args w v entries paths :
  metadata_decodes json_loads args w v ->
  Py.iterate v = Return entries ->
  listed_paths entries = Some paths ->
  Forall (fun p => is_Some (file_at w p)) paths ->
  load_metadata json_loads args w
  = (w, Return (max_size w paths, map JStr paths)).
Proof.
  intros (m & n & Hm & Hn & Hr & Hj) Hit Hl Hex.
  unfold load_metadata, IO.read_text, json_load. unfold bind at 1.
  rewrite Hm, Hn, Hr. unfold bind at 1. rewrite Hj. simpl.
  rewrite bind_lift, Hit.
  by rewrite (scan_entries_ok _ _ _ _ _ Hl Hex).
Qed.

(** C8, as the script has it.  The argument parser does not require the
    name: a command line it accepts with [--name] it accepts without,
    the name being then [None].  The run on such a command line never
    comes to its end and never writes stub text: it ends in an exception,
    and every file is left as it was, empty, or holding the dependency
    record.  When the rest of the invocation is valid, the exception is
    the [AttributeError] of the case identifier, raised after the
    dependency file was written and the stub file created empty. *)
Theorem omitted_name_fails_late argv1 v argv2 args w :
  parse_args (argv1 ++ "--name" :: v :: argv2) = Return args ->
  "--name" ∉ argv1 -> "--name" ∉ argv2 ->
  let argv := (argv1 ++ argv2)%list in
  let args' := set_name args None in
  parse_args argv = Return args' /\
  (exists e w',
     main json_loads argv w = (w', Raise e) /\
     without_stub_text args' w w') /\
  (forall d o v entries paths,
     depfile args' = Some d -> outfile args' = Some o ->
     writable w d = true -> writable w o = true ->
     metadata_decodes json_loads args' w v ->
     Py.iterate v = Return entries ->
     listed_paths entries = Some paths ->
     Forall (fun p => is_Some (file_at w p)) paths ->
     main json_loads argv w
     = (written (written w d (dep_line o paths)) o EmptyString,
        Raise AttributeError)).
Proof.
  intros Hp Hn1 Hn2 argv args'.
  assert (parse_args argv = Return args') as Hparse.
  { apply (parse_from_without_name (length argv1) argv1 v argv2 defaults);
      done. }
  split; [exact Hparse|]. unfold main. rewrite Hparse, bind_lift. split.
  - by apply main_args_no_name.
  - intros d o v0 entries paths Hd Ho Hwd Hwo Hdec Hit Hl Hex.
    unfold main_args.
    returns (load_metadata_iterable _ _ _ _ _ Hdec Hit Hl Hex). simpl.
    returns (write_depfile_ok _ _ _ _ Hd Hwd).
    rewrite Ho. simpl.
    by rewrite (write_stub_no_name args' (written w d _) o _ Ho Hwo eq_refl).
Qed.

(** C10, as the script has it.  The dependency file is written in full
    before the stub file is opened, and when the stub phase then fails
    the complete dependency record is left behind, provided the
    dependency file and the stub file are two files: that the two paths
    do not resolve to one. *)
Theorem depfile_survives_when_outputs_differ args w :
  stub_phase_fails json_loads args w ->
  (forall d o,
     depfile args = Some d -> outfile args = Some o -> ~ same_file d o) ->
  depfile_left_complete json_loads args w.
Proof.
  intros (r & w0 & w1 & w2 & e & Hl & Hd & Hs) Hne.
  pose proof (load_metadata_world json_loads args w) as Hw.
  rewrite Hl in Hw. simpl in Hw. subst w0.
  destruct (write_depfile_outcome args r.2 w)
    as [[x Hx] | [(d & _ & Hx) | (d & line & Hdep & Hline & Hx)]];
    rewrite Hx in Hd; [done | done |].
  injection Hd as <-.
  exists d, r, w, (written w d line), line.
  repeat (split; [done|]).
  split; [apply contents_written_eq|].
  unfold main_args.
  returns Hl. returns Hx. rewrite Hs.
  simpl. clear Hl Hx.
  destruct (outfile args) as [o|] eqn:Ho.
  2:{ unfold write_stub in Hs. rewrite Ho in Hs.
      injection Hs as <- _. apply contents_written_eq. }
  destruct (open_error (written w d line) o) as [x|] eqn:Hx.
  { unfold write_stub in Hs.
    rewrite Ho in Hs. raises (open_w_denied _ _ _ Hx) in Hs.
    injection Hs as <- _. apply contents_written_eq. }
  assert (writable (written w d line) o = true) as Hwo
    by (unfold writable; by rewrite Hx).
  destruct (name args) as [f|] eqn:Hf.
  - by rewrite (write_stub_ok _ _ _ _ _ Ho Hwo Hf) in Hs.
  - rewrite (write_stub_no_name _ _ _ _ Ho Hwo Hf) in Hs.
    injection Hs as <- _.
    rewrite contents_written_ne.
    + apply contents_written_eq.
    + intros Hsame. apply (Hne d o); [done | done | by symmetry].
Qed.

End Corrected.

End General.

(** ** The script run on concrete disks *)

Section OnDisk.

#[local] Existing Instance Scenario.paths.
#[local] Existing Instance PyStr.ascii_only.

Lemma disk_valid :
  valid MiniJson.loads Scenario.args Scenario.disk "foo" "out.d" "out.S"
    ["b.S"; "a.S"].
Proof.
  constructor; try reflexivity.
  - eexists "m.json", _, _. repeat split; (vm_compute; reflexivity).
  - repeat constructor; eexists; (vm_compute; reflexivity).
Defined.

Lemma other_disk_valid :
  valid MiniJson.loads Scenario.args Scenario.other_disk "foo" "out.d" "out.S"
    ["b.S"; "a.S"].
Proof.
  constructor; try reflexivity.
  - eexists "m.json", _, _. repeat split; (vm_compute; reflexivity).
  - repeat constructor; eexists; (vm_compute; reflexivity).
Defined.

(** The scenario of the description: alternatives of 10 and 30 bytes,
    function [foo]. *)
Example run_on_disk :
  let r := main_args MiniJson.loads Scenario.args Scenario.disk in
  r.2 = Return tt /\
  contents r.1 "out.d" = Some ("out.S: a.S b.S" +:+ nl) /\
  contents r.1 "out.S"
  = Some (stub_text "2021" "lib/case-id.h" "foo" "CASE_ID_FOO" "30"
          +:+ alias_block "foo" "bar" +:+ alias_block "foo" "baz").
Proof. vm_compute. repeat split. Qed.

Example run_on_empty_metadata :
  let r := main_args MiniJson.loads (Scenario.with_metadata "empty.json")
             Scenario.disk in
  r.2 = Return tt /\
  contents r.1 "out.d" = Some ("out.S: " +:+ nl) /\
  contents r.1 "out.S"
  = Some (stub_text "2021" "lib/case-id.h" "foo" "CASE_ID_FOO" "0"
          +:+ alias_block "foo" "bar" +:+ alias_block "foo" "baz").
Proof. vm_compute. repeat split. Qed.

(** Without the name the run writes the dependency file, creates the stub
    file, and only then fails. *)
Example run_without_name :
  let r := main MiniJson.loads Scenario.argv_no_name Scenario.disk in
  r.2 = Raise AttributeError /\
  contents r.1 "out.d" = Some ("out.S: a.S b.S" +:+ nl) /\
  contents r.1 "out.S" = Some EmptyString.
Proof. vm_compute. repeat split. Qed.

(** With one path for both outputs and no name, the dependency record
    is gone when the run has failed. *)
Example run_with_one_output :
  let r := main_args MiniJson.loads Scenario.args_one_output Scenario.disk in
  r.2 = Raise AttributeError /\ contents r.1 "out.d" = Some EmptyString.
Proof. vm_compute. repeat split. Qed.

(** The same with two paths that name one file. *)
Example run_with_two_names_of_one_file :
  let r := main_args MiniJson.loads Scenario.args_two_names Scenario.disk in
  "out.d" <> "./out.d" /\ same_file "out.d" "./out.d" /\
  r.2 = Raise AttributeError /\ contents r.1 "out.d" = Some EmptyString.
Proof. vm_compute. repeat split. discriminate. Qed.

(** With a name and one path for both outputs the run comes to its end,
    and the file holds the stub. *)
Example run_with_shared_output :
  let r := main_args MiniJson.loads Scenario.args_shared_output
             Scenario.disk in
  r.2 = Return tt /\
  contents r.1 "out.d"
  = Some (stub_text "2021" "lib/case-id.h" "foo" "CASE_ID_FOO" "30").
Proof. vm_compute. repeat split. Qed.

Lemma stub_size_is_maximum_witness :
  exists w' sz,
    main_args MiniJson.loads Scenario.args Scenario.disk = (w', Return tt) /\
    contents w' "out.S"
    = Some (stub_text (PyStr.str_int (year (today Scenario.disk)))
              (PyStr.str_opt (header Scenario.args)) "foo"
              ("CASE_ID_" +:+ PyStr.upper "foo") (PyStr.str_int sz)
            +:+ alias_blocks "foo" (aliases Scenario.args)) /\
    (["b.S"; "a.S"] = [] -> sz = 0) /\
    (forall p, p ∈ ["b.S"; "a.S"] -> size Scenario.disk p <= sz) /\
    (["b.S"; "a.S"] <> [] ->
     exists p, p ∈ ["b.S"; "a.S"] /\ size_of Scenario.disk p = Some sz).
Proof. exact (stub_size_is_maximum _ _ _ _ _ _ _ disk_valid). Defined.

Lemma case_id_from_name_witness :
  exists y h sz cid,
    (forall al,
       contents
         (main_args MiniJson.loads (set_aliases Scenario.args al)
            Scenario.disk).1 "out.S"
       = Some (stub_text y h "foo" cid sz +:+ alias_blocks "foo" al)) /\
    cid = "CASE_ID_" +:+ PyStr.upper "foo" /\
    cid = "CASE_ID_FOO".
Proof.
  destruct (case_id_from_name MiniJson.loads _ _ _ _ _ _ disk_valid)
    as (y & h & sz & cid & Hrun & Hcid & Hascii).
  exists y, h, sz, cid.
  exact (conj Hrun (conj Hcid (Hascii eq_refl))).
Defined.

Lemma two_outputs : ~ same_file "out.d" "out.S".
Proof. unfold same_file. vm_compute. discriminate. Defined.

Lemma depfile_record_witness :
  exists w' sorted_paths,
    main_args MiniJson.loads Scenario.args Scenario.disk = (w', Return tt) /\
    contents w' "out.d"
    = Some ("out.S" +:+ ": " +:+ PyStr.join " " sorted_paths +:+ nl) /\
    StronglySorted String.le sorted_paths /\
    sorted_paths ≡ₚ ["b.S"; "a.S"] /\
    newlines ("out.S" +:+ ": " +:+ PyStr.join " " sorted_paths +:+ nl)
    = 1%nat.
Proof.
  destruct (depfile_record MiniJson.loads _ _ "foo" _ _ _ disk_valid
              two_outputs)
    as (w' & sorted_paths & Hrun & Hc & Hs & Hp & Hl).
  exists w', sorted_paths.
  refine (conj Hrun (conj Hc (conj Hs (conj Hp (Hl eq_refl _))))).
  repeat constructor.
Defined.

Lemma alias_blocks_in_order_witness :
  exists body,
    contents
      (main_args MiniJson.loads (set_aliases Scenario.args [])
         Scenario.disk).1 "out.S"
    = Some body /\
    forall al,
      contents
        (main_args MiniJson.loads (set_aliases Scenario.args al)
           Scenario.disk).1 "out.S"
      = Some (body
              +:+ foldr (fun a rest =>
                           nl +:+ ".weak " +:+ a +:+ nl
                           +:+ ".hidden " +:+ a +:+ nl
                           +:+ a +:+ " = " +:+ "foo" +:+ nl +:+ rest)
                    EmptyString al).
Proof. exact (alias_blocks_in_order _ _ _ _ _ _ _ disk_valid). Defined.

Lemma missing_metadata :
  metadata_failure MiniJson.loads (Scenario.with_metadata "nowhere.json")
    Scenario.disk.
Proof. by eapply metadata_missing; vm_compute. Defined.

Lemma unreadable_metadata :
  metadata_failure MiniJson.loads (Scenario.with_metadata "secret.json")
    Scenario.disk.
Proof.
  apply (metadata_unreadable _ _ _ "secret.json"
           {| data := "[]"; readable := false |});
    (vm_compute; reflexivity).
Defined.

Lemma malformed_metadata :
  metadata_failure MiniJson.loads (Scenario.with_metadata "bad.json")
    Scenario.disk.
Proof.
  apply (metadata_malformed _ _ _ "bad.json" (Scenario.file "[{"));
    (vm_compute; reflexivity).
Defined.

Lemma missing_alternative :
  metadata_failure MiniJson.loads (Scenario.with_metadata "lost.json")
    Scenario.disk.
Proof.
  eapply (alternative_missing _ _ _ "lost.json" _ _
            (JObj [("path", JStr "gone.S")]) "gone.S");
    try (vm_compute; reflexivity).
  apply list_elem_of_In. right. left. reflexivity.
Defined.

Lemma bad_metadata_is_fatal_witness :
  (exists e, (main_args MiniJson.loads (Scenario.with_metadata "nowhere.json")
                Scenario.disk).2 = Raise e) /\
  (exists e, (main_args MiniJson.loads (Scenario.with_metadata "secret.json")
                Scenario.disk).2 = Raise e) /\
  (exists e, (main_args MiniJson.loads (Scenario.with_metadata "bad.json")
                Scenario.disk).2 = Raise e) /\
  (exists e, (main_args MiniJson.loads (Scenario.with_metadata "lost.json")
                Scenario.disk).2 = Raise e).
Proof.
  exact (conj (bad_metadata_is_fatal _ _ _ missing_metadata)
           (conj (bad_metadata_is_fatal _ _ _ unreadable_metadata)
              (conj (bad_metadata_is_fatal _ _ _ malformed_metadata)
                 (bad_metadata_is_fatal _ _ _ missing_alternative)))).
Defined.

Lemma bad_metadata_writes_nothing_witness :
  (main_args MiniJson.loads (Scenario.with_metadata "nowhere.json")
     Scenario.disk).1 = Scenario.disk /\
  (main_args MiniJson.loads (Scenario.with_metadata "secret.json")
     Scenario.disk).1 = Scenario.disk /\
  (main_args MiniJson.loads (Scenario.with_metadata "bad.json")
     Scenario.disk).1 = Scenario.disk /\
  (main_args MiniJson.loads (Scenario.with_metadata "lost.json")
     Scenario.disk).1 = Scenario.disk.
Proof.
  exact (conj (bad_metadata_writes_nothing _ _ _ missing_metadata)
           (conj (bad_metadata_writes_nothing _ _ _ unreadable_metadata)
              (conj (bad_metadata_writes_nothing _ _ _ malformed_metadata)
                 (bad_metadata_writes_nothing _ _ _ missing_alternative)))).
Defined.

Lemma same_inputs_same_outputs_witness :
  let r1 := (main_args MiniJson.loads Scenario.args Scenario.disk).1 in
  let r2 := (main_args MiniJson.loads Scenario.args Scenario.other_disk).1 in
  (today Scenario.disk = today Scenario.other_disk ->
   contents r1 "out.d" = contents r2 "out.d" /\
   contents r1 "out.S" = contents r2 "out.S") /\
  (~ same_file "out.d" "out.S" ->
   contents r1 "out.d" = contents r2 "out.d") /\
  exists pre post,
    contents r1 "out.S"
    = Some (pre +:+ PyStr.str_int (year (today Scenario.disk)) +:+ post) /\
    contents r2 "out.S"
    = Some (pre +:+ PyStr.str_int (year (today Scenario.other_disk))
            +:+ post).
Proof.
  apply (same_inputs_same_outputs _ _ _ _ "foo" _ _ _ _ "m.json"
           disk_valid other_disk_valid);
    [reflexivity | vm_compute; reflexivity | repeat constructor].
Defined.

Lemma stub_layout_witness :
  let cid := "CASE_ID_" +:+ PyStr.upper "foo" in
  exists w',
    main_args MiniJson.loads Scenario.args Scenario.disk = (w', Return tt) /\
    contents w' "out.S"
    = Some (license_header (PyStr.str_int (year (today Scenario.disk)))
            +:+ generated_warning
            +:+ include_asm
            +:+ include_code_patching
            +:+ include_header (PyStr.str_opt (header Scenario.args)) cid
            +:+ function_decl "foo"
                  (PyStr.str_int (max_size Scenario.disk ["b.S"; "a.S"])) cid
            +:+ alias_blocks "foo" (aliases Scenario.args)).
Proof. exact (stub_layout _ _ _ _ _ _ _ disk_valid). Defined.

Lemma stub_phase_fails_no_name json_loads args w d o paths :
  name args = None ->
  depfile args = Some d -> outfile args = Some o ->
  writable w d = true -> writable w o = true ->
  metadata_lists json_loads args w paths ->
  Forall (fun p => is_Some (file_at w p)) paths ->
  stub_phase_fails json_loads args w.
Proof.
  intros Hn Hd Ho Hwd Hwo Hm Hex.
  exists (max_size w paths, map JStr paths), w,
    (written w d (dep_line (PyStr.str_opt (outfile args)) paths)),
    (written (written w d (dep_line (PyStr.str_opt (outfile args)) paths))
       o EmptyString),
    AttributeError.
  split; [by apply load_metadata_ok|].
  split; [by apply write_depfile_ok|].
  by apply write_stub_no_name.
Qed.

Lemma disk_lists_paths args :
  metadata_file args = Some "m.json" ->
  metadata_lists MiniJson.loads args Scenario.disk ["b.S"; "a.S"].
Proof.
  intros H. eexists "m.json", _, _.
  split; [exact H|]. repeat split; (vm_compute; reflexivity).
Qed.

Lemma disk_has_alternatives :
  Forall (fun p => is_Some (file_at Scenario.disk p)) ["b.S"; "a.S"].
Proof. repeat constructor; eexists; (vm_compute; reflexivity). Qed.

Lemma omitted_name_fails_late_witness :
  parse_args Scenario.argv_no_name = Return Scenario.args_no_name /\
  (exists e w',
     main MiniJson.loads Scenario.argv_no_name Scenario.disk
     = (w', Raise e) /\
     without_stub_text Scenario.args_no_name Scenario.disk w') /\
  (forall d o v entries paths,
     depfile Scenario.args_no_name = Some d ->
     outfile Scenario.args_no_name = Some o ->
     writable Scenario.disk d = true -> writable Scenario.disk o = true ->
     metadata_decodes MiniJson.loads Scenario.args_no_name Scenario.disk v ->
     Py.iterate v = Return entries ->
     listed_paths entries = Some paths ->
     Forall (fun p => is_Some (file_at Scenario.disk p)) paths ->
     main MiniJson.loads Scenario.argv_no_name Scenario.disk
     = (written (written Scenario.disk d (dep_line o paths)) o EmptyString,
        Raise AttributeError)).
Proof.
  apply (omitted_name_fails_late MiniJson.loads [] "foo"
           Scenario.argv_no_name
           (set_name Scenario.args_no_name (Some "foo")) Scenario.disk).
  - vm_compute. reflexivity.
  - apply not_elem_of_nil.
  - apply (bool_decide_unpack _). vm_compute. exact I.
Defined.

Lemma depfile_survives_when_outputs_differ_witness :
  depfile_left_complete MiniJson.loads Scenario.args_no_name Scenario.disk.
Proof.
  apply depfile_survives_when_outputs_differ.
  - apply (stub_phase_fails_no_name _ _ _ "out.d" "out.S" ["b.S"; "a.S"]);
      try reflexivity.
    + by apply disk_lists_paths.
    + apply disk_has_alternatives.
  - intros d o [= <-] [= <-]. exact two_outputs.
Defined.

Lemma shared_output_valid :
  valid MiniJson.loads Scenario.args_shared_output Scenario.disk
    "foo" "out.d" "out.d" ["b.S"; "a.S"].
Proof.
  constructor; try reflexivity.
  - eexists "m.json", _, _. repeat split; (vm_compute; reflexivity).
  - repeat constructor; eexists; (vm_compute; reflexivity).
Qed.

(** C3 as stated fails: with one path for both outputs the invocation is
    valid and the run comes to its end, and the file then holds the stub,
    which is written last, and not the dependency record. *)
Lemma depfile_is_sorted_record_fails : ~ depfile_is_sorted_record.
Proof.
  intros H.
  destruct (H MiniJson.loads Scenario.args_shared_output Scenario.disk
              "foo" "out.d" "out.d" ["b.S"; "a.S"] shared_output_valid)
    as (w' & sorted_paths & Hrun & Hc & _).
  apply (f_equal fst) in Hrun. simpl in Hrun. subst w'.
  vm_compute in Hc. discriminate.
Qed.

(** C8 as stated fails: the command line without [--name] is parsed, and
    the run goes on to write files before it raises something other than
    a usage error. *)
Lemma name_is_required_fails : ~ name_is_required.
Proof.
  intros H.
  destruct (H MiniJson.loads Scenario.argv_no_name Scenario.disk) as [c Hc].
  - apply (bool_decide_unpack _). vm_compute. exact I.
  - apply (f_equal snd) in Hc. vm_compute in Hc. discriminate.
Qed.

(** C10 as stated fails: when one path is given for both outputs and the
    stub phase fails, the dependency record written first is lost. *)
Lemma depfile_survives_stub_failure_fails : ~ depfile_survives_stub_failure.
Proof.
  intros H.
  destruct (H MiniJson.loads Scenario.args_one_output Scenario.disk)
    as (d & r & w0 & w1 & line & Hd & Hl & Hline & _ & _ & Hc).
  - apply (stub_phase_fails_no_name _ _ _ "out.d" "out.d" ["b.S"; "a.S"]);
      try reflexivity.
    + by apply disk_lists_paths.
    + apply disk_has_alternatives.
  - injection Hd as <-.
    rewrite (load_metadata_ok _ _ _ _
               (disk_lists_paths Scenario.args_one_output eq_refl)
               disk_has_alternatives) in Hl.
    injection Hl as <- <-.
    vm_compute in Hline. injection Hline as <-.
    vm_compute in Hc. discriminate.
Qed.

End OnDisk.

(** * Further properties of the script *)

Section Further.

Context {the_paths : Paths} {the_case : PyStr.Upper}.

(** ** What a run leaves alone *)

Lemma open_w_elsewhere q w p :
  (forall f, q = Some f -> ~ same_file f p) ->
  file_at (IO.open_w q w).1 p = file_at w p.
Proof.
  intros Hq. unfold IO.open_w. destruct q as [f|]; [|done].
  destruct (open_error w f); [done|]. unfold file_at. simpl.
  apply lookup_insert_ne. by apply Hq.
Qed.

Lemma open_w_Return q w w' f :
  IO.open_w q w = (w', Return f) -> exists p, q = Some p /\ f = inode p.
Proof.
  unfold IO.open_w. destruct q as [p|]; [|done].
  destruct (open_error w p); [done|]. intros [= _ <-]. by exists p.
Qed.

Lemma write_elsewhere f s w p :
  f <> inode p -> file_at (IO.write f s w).1 p = file_at w p.
Proof.
  intros Hf. unfold IO.write, file_at. simpl. by apply lookup_alter_ne.
Qed.

Lemma bind_write {B} f s (k : unit -> M B) w :
  bind (IO.write f s) k w = k tt (IO.write f s w).1.
Proof. reflexivity. Qed.

Lemma write_aliases_elsewhere al : forall f nm w p,
  f <> inode p -> file_at (write_aliases f al nm w).1 p = file_at w p.
Proof.
  induction al as [|a r IH]; intros f nm w p Hf; simpl; [done|].
  rewrite substitute_ALIAS, bind_lift, bind_write, IH by done.
  by apply write_elsewhere.
Qed.

Lemma write_depfile_elsewhere args alts w p :
  (forall d, depfile args = Some d -> ~ same_file d p) ->
  file_at (write_depfile args alts w).1 p = file_at w p.
Proof.
  intros Hd. unfold write_depfile, bind.
  pose proof (open_w_elsewhere _ w p Hd) as Ho.
  destruct (IO.open_w (depfile args) w) as [w1 [f|e]] eqn:E; [|done].
  apply open_w_Return in E as (d & E & ->). simpl in Ho.
  unfold lift. destruct (depfile_line (outfile args) alts) as [line|]; [|done].
  rewrite write_elsewhere; [done | by apply Hd].
Qed.

Lemma write_stub_elsewhere args sz w p :
  (forall o, outfile args = Some o -> ~ same_file o p) ->
  file_at (write_stub args sz w).1 p = file_at w p.
Proof.
  intros Hd. unfold write_stub. unfold bind at 1.
  pose proof (open_w_elsewhere _ w p Hd) as Ho.
  destruct (IO.open_w (outfile args) w) as [w1 [f|e]] eqn:E; [|done].
  apply open_w_Return in E as (o & E & ->). simpl in Ho.
  assert (inode o <> inode p) as Hf by by apply Hd.
  unfold IO.today_year at 1. unfold bind at 1.
  rewrite bind_lift. destruct (case_id (name args)) as [cid|]; [|done].
  rewrite substitute_STUB_CONTENTS, bind_lift, bind_write.
  rewrite write_aliases_elsewhere by done.
  by rewrite write_elsewhere.
Qed.

Section Frame.

Variable json_loads : string -> option json.

(** X1.  Whatever the arguments and however the run ends, a file that is
    neither the dependency file nor the stub file of the invocation - that
    neither of the two paths resolves to - is after the run what it was
    before. *)
Theorem run_touches_only_outputs args w p :
  (forall d, depfile args = Some d -> ~ same_file d p) ->
  (forall o, outfile args = Some o -> ~ same_file o p) ->
  file_at (main_args json_loads args w).1 p = file_at w p.
Proof.
  intros Hd Ho. unfold main_args. unfold bind at 1.
  pose proof (load_metadata_world json_loads args w) as Hw.
  destruct (load_metadata json_loads args w) as [w0 [r|e]];
    simpl in Hw; subst w0; [|done].
  unfold bind.
  pose proof (write_depfile_elsewhere args r.2 w p Hd) as H1.
  destruct (write_depfile args r.2 w) as [w1 [[]|e]]; [|done].
  simpl in H1. by rewrite write_stub_elsewhere.
Qed.

End Frame.

(** ** When a run comes to its end *)

Lemma bind_assoc {A B C} (m : M A) (k : A -> M B) (k' : B -> M C) w :
  bind (bind m k) k' w = bind m (fun x => bind (k x) k') w.
Proof. unfold bind. by destruct (m w) as [w1 [a|e]]. Qed.

Lemma getsize_Return v w w' sz :
  IO.getsize v w = (w', Return sz) -> w' = w /\ value_size w v = sz.
Proof.
  intros H. pose proof (getsize_world v w) as Hw.
  unfold value_size. rewrite H in *. by simpl in *.
Qed.

Lemma has_size_value w v :
  has_size w v -> IO.getsize v w = (w, Return (value_size w v)).
Proof.
  intros [sz H]. by destruct (getsize_Return _ _ _ _ H) as [_ <-].
Qed.

Lemma path_value_getitem e v :
  path_value e = Some v -> Py.getitem e "path" = Return v.
Proof. unfold path_value. destruct (Py.getitem e "path"); congruence. Qed.

(** The loop gets through entries whose [path] values all have a size. *)
Lemma scan_entries_values entries : forall vals m a w,
  path_values entries = Some vals ->
  Forall (has_size w) vals ->
  scan_entries entries m a w
  = (w, Return (fold_left Z.max (map (value_size w) vals) m,
                (a ++ vals)%list)).
Proof.
  induction entries as [|e r IH]; intros vals m a w Hv Hs; simpl in *.
  - injection Hv as <-. simpl. by rewrite app_nil_r.
  - destruct (path_value e) as [v|] eqn:Hp; [|done].
    destruct (path_values r) as [vs|] eqn:Hr; [|done].
    injection Hv as <-. apply Forall_cons in Hs as [Hs1 Hs].
    rewrite bind_lift, (path_value_getitem _ _ Hp).
    returns (has_size_value _ _ Hs1).
    rewrite (IH vs _ _ _ eq_refl Hs). simpl. by rewrite <- app_assoc.
Qed.

(** And only through such entries. *)
Lemma scan_entries_Return entries : forall m a w w' r,
  scan_entries entries m a w = (w', Return r) ->
  exists vals,
    path_values entries = Some vals /\ Forall (has_size w) vals /\
    r = (fold_left Z.max (map (value_size w) vals) m, (a ++ vals)%list).
Proof.
  induction entries as [|e rest IH]; intros m a w w' r H; simpl in H.
  - injection H as _ <-. exists []. simpl. by rewrite app_nil_r.
  - rewrite bind_lift in H. simpl.
    unfold path_value.
    destruct (Py.getitem e "path") as [v|]; [|done].
    unfold bind in H.
    destruct (IO.getsize v w) as [w1 [sz|x]] eqn:Hs; [|done].
    destruct (getsize_Return _ _ _ _ Hs) as [-> Hsz].
    destruct (IH _ _ _ _ _ H) as (vals & -> & Hall & ->).
    exists (v :: vals). split; [done|]. split.
    + constructor; [by exists sz | done].
    + simpl. by rewrite Hsz, <- app_assoc.
Qed.

Lemma all_str_Some vals : forall paths,
  Py.all_str vals = Some paths -> vals = map JStr paths.
Proof.
  induction vals as [|v r IH]; intros paths H; simpl in H.
  - by injection H as <-.
  - destruct v; try done.
    destruct (Py.all_str r) as [ss|]; [|done].
    injection H as <-. simpl. by rewrite (IH ss).
Qed.

Lemma path_values_strings entries : forall paths,
  path_values entries = Some (map JStr paths) <->
  listed_paths entries = Some paths.
Proof.
  induction entries as [|e r IH]; intros paths; simpl.
  - split; intros H; destruct paths; simpl in *; congruence.
  - unfold path_value, path_of.
    destruct (Py.getitem e "path") as [v|].
    2:{ split; intros H; done. }
    split; intros H.
    + destruct (path_values r) as [vs|]; [|done].
      destruct paths as [|p ps]; [done|]. simpl in H.
      injection H as -> ->. by rewrite (proj1 (IH ps) eq_refl).
    + destruct v; try done.
      destruct (listed_paths r) as [ps|] eqn:Hr; [|done].
      injection H as <-. by rewrite (proj2 (IH ps) eq_refl).
Qed.

Lemma has_size_string w p : has_size w (JStr p) <-> is_Some (file_at w p).
Proof.
  split.
  - intros [sz H]. unfold IO.getsize, size_of in H.
    destruct (file_at w p); [by eexists | done].
  - intros H. eexists. by apply getsize_found.
Qed.

Lemma value_size_string w p : value_size w (JStr p) = size w p.
Proof.
  unfold value_size, size, IO.getsize. by destruct (size_of w p).
Qed.

Lemma write_depfile_Return args alts w w1 :
  write_depfile args alts w = (w1, Return tt) ->
  exists d paths,
    depfile args = Some d /\ writable w d = true /\
    alts = map JStr paths /\
    w1 = written w d (dep_line (PyStr.str_opt (outfile args)) paths).
Proof.
  unfold write_depfile. intros H.
  destruct (depfile args) as [d|]; [|done].
  destruct (writable w d) eqn:Hwd.
  2:{ destruct (not_writable _ _ Hwd) as [x Hx].
      by raises (open_w_denied _ _ _ Hx) in H. }
  returns (open_w_ok _ _ Hwd) in H. rewrite bind_lift in H.
  unfold depfile_line in H.
  destruct (Py.all_str alts) as [paths|] eqn:Ha; [|done].
  rewrite write_written in H. injection H as <-.
  exists d, paths. by rewrite (all_str_Some _ _ Ha).
Qed.

Lemma write_stub_Return args sz w w' :
  write_stub args sz w = (w', Return tt) ->
  exists o f,
    outfile args = Some o /\ writable w o = true /\ name args = Some f /\
    w' = written w o
           (stub_text (PyStr.str_int (year (today w)))
              (PyStr.str_opt (header args)) f
              ("CASE_ID_" +:+ PyStr.upper f) (PyStr.str_int sz)
            +:+ alias_blocks f (aliases args)).
Proof.
  intros H. destruct (outfile args) as [o|] eqn:Ho.
  2:{ unfold write_stub in H. by rewrite Ho in H. }
  destruct (writable w o) eqn:Hwo.
  2:{ unfold write_stub in H. rewrite Ho in H.
      destruct (not_writable _ _ Hwo) as [x Hx].
      by raises (open_w_denied _ _ _ Hx) in H. }
  destruct (name args) as [f|] eqn:Hf.
  2:{ by rewrite (write_stub_no_name _ _ _ _ Ho Hwo Hf) in H. }
  rewrite (write_stub_ok _ _ _ _ _ Ho Hwo Hf) in H. injection H as <-.
  by exists o, f.
Qed.

Lemma max_size_values w paths :
  fold_left Z.max (map (value_size w) (map JStr paths)) 0 = max_size w paths.
Proof.
  unfold max_size. f_equal. rewrite map_map. apply map_ext.
  intros p. apply value_size_string.
Qed.

Section Outcome.

Variable json_loads : string -> option json.

Lemma load_metadata_decodes args w v :
  metadata_decodes json_loads args w v ->
  load_metadata json_loads args w
  = bind (lift (Py.iterate v)) (fun entries => scan_entries entries 0 []) w.
Proof.
  intros (m & n & Hm & Hn & Hr & Hj).
  unfold load_metadata, IO.read_text, json_load. unfold bind at 1.
  rewrite Hm, Hn, Hr. unfold bind at 1. by rewrite Hj.
Qed.

Lemma load_metadata_Return args w w0 r :
  load_metadata json_loads args w = (w0, Return r) ->
  exists v entries,
    metadata_decodes json_loads args w v /\
    Py.iterate v = Return entries /\
    scan_entries entries 0 [] w = (w0, Return r).
Proof.
  unfold load_metadata, IO.read_text, json_load. unfold bind at 1.
  intros H.
  destruct (metadata_file args) as [m|] eqn:Hm; [|done].
  destruct (file_at w m) as [n|] eqn:Hn; [|done].
  destruct (readable n) eqn:Hr; [|done].
  unfold bind at 1 in H.
  destruct (json_loads (data n)) as [v|] eqn:Hj; [|done].
  simpl in H. rewrite bind_lift in H.
  destruct (Py.iterate v) as [entries|] eqn:Hi; [|done].
  exists v, entries. split; [by exists m, n | done].
Qed.

Lemma main_args_accepted args w f d o paths :
  accepted json_loads args w f d o paths ->
  main_args json_loads args w = (outputs args w f d o paths, Return tt).
Proof.
  intros [Hf Hd Ho Hwd Hwo (v & entries & Hdec & Hit & Hl) Hex].
  unfold main_args, outputs.
  assert (load_metadata json_loads args w
          = (w, Return (max_size w paths, map JStr paths))) as Hload.
  { rewrite (load_metadata_decodes _ _ _ Hdec), bind_lift, Hit.
    by rewrite (scan_entries_ok _ _ _ _ _ Hl Hex). }
  returns Hload. simpl.
  returns (write_depfile_ok _ _ _ _ Hd Hwd).
  rewrite Ho. simpl.
  by rewrite (write_stub_ok args (written w d _) o f _ Ho Hwo Hf).
Qed.

(** X4.  A run comes to its end only when the invocation is accepted:
    name, dependency file and stub file are given, both outputs can be
    opened, the metadata file is readable and decodes to something the
    loop runs over, and every entry has a string [path] naming a file on
    disk.  The world it leaves is then the one with the dependency record
    and the stub written. *)
Theorem success_only_if_accepted args w w' :
  main_args json_loads args w = (w', Return tt) ->
  exists f d o paths,
    accepted json_loads args w f d o paths /\
    w' = outputs args w f d o paths.
Proof.
  unfold main_args. unfold bind at 1. intros H.
  destruct (load_metadata json_loads args w) as [w0 [r|e]] eqn:Hl; [|done].
  pose proof (load_metadata_world json_loads args w) as Hw.
  rewrite Hl in Hw. simpl in Hw. subst w0.
  unfold bind in H.
  destruct (write_depfile args r.2 w) as [w1 [[]|e]] eqn:Hd; [|done].
  destruct (load_metadata_Return _ _ _ _ Hl)
    as (v & entries & Hdec & Hit & Hscan).
  destruct (scan_entries_Return _ _ _ _ _ _ Hscan)
    as (vals & Hvals & Hsz & ->). simpl in *.
  destruct (write_depfile_Return _ _ _ _ Hd)
    as (d & paths & Hdep & Hwd & -> & ->).
  destruct (write_stub_Return _ _ _ _ H)
    as (o & f & Hout & Hwo & Hf & ->).
  exists f, d, o, paths. split.
  - constructor; try done.
    + exists v, entries. by rewrite <- path_values_strings.
    + rewrite Forall_forall in Hsz. apply Forall_forall. intros p Hp.
      apply has_size_string, Hsz, list_elem_of_fmap. by exists p.
  - unfold outputs. rewrite Hout. simpl. by rewrite max_size_values.
Qed.

End Outcome.

(** ** How the loop goes wrong *)

Lemma scan_entries_visit e rest m a w x :
  (visit e w).2 = Raise x ->
  scan_entries (e :: rest) m a w = (w, Raise x).
Proof.
  unfold visit. simpl. rewrite !bind_lift. intros H.
  destruct (Py.getitem e "path") as [v|]; simpl in H; [|congruence].
  unfold bind. pose proof (getsize_world v w) as Hw.
  destruct (IO.getsize v w) as [w1 [sz|y]]; simpl in *; congruence.
Qed.

Lemma scan_stops_at_bad good : forall vals bad rest m a w x,
  path_values good = Some vals ->
  Forall (has_size w) vals ->
  (visit bad w).2 = Raise x ->
  scan_entries (good ++ bad :: rest) m a w = (w, Raise x).
Proof.
  induction good as [|e r IH]; intros vals bad rest m a w x Hv Hs Hbad.
  - by apply scan_entries_visit.
  - simpl in Hv.
    destruct (path_value e) as [v|] eqn:Hp; [|done].
    destruct (path_values r) as [vs|] eqn:Hr; [|done].
    injection Hv as <-. apply Forall_cons in Hs as [Hs1 Hs].
    cbn [app scan_entries].
    rewrite bind_lift, (path_value_getitem _ _ Hp).
    returns (has_size_value _ _ Hs1).
    by apply (IH vs).
Qed.

Lemma load_stops_at_bad json_loads args w good bad rest vals x :
  metadata_decodes json_loads args w (JArr (good ++ bad :: rest)) ->
  path_values good = Some vals ->
  Forall (has_size w) vals ->
  (visit bad w).2 = Raise x ->
  load_metadata json_loads args w = (w, Raise x).
Proof.
  intros Hdec Hv Hs Hbad.
  rewrite (load_metadata_decodes _ _ _ _ Hdec), bind_lift. simpl.
  by apply (scan_stops_at_bad _ vals).
Qed.

Section Errors.

Variable json_loads : string -> option json.

(** X6.  The first entry the loop cannot get through decides how the run
    ends: with the exception that entry raises, whatever comes after it
    in the array, and with no file written. *)
Theorem first_bad_entry_decides args w good bad rest vals x :
  metadata_decodes json_loads args w (JArr (good ++ bad :: rest)) ->
  path_values good = Some vals ->
  Forall (has_size w) vals ->
  (visit bad w).2 = Raise x ->
  main_args json_loads args w = (w, Raise x).
Proof.
  intros Hdec Hv Hs Hbad. unfold main_args.
  by raises (load_stops_at_bad _ _ _ _ _ _ _ _ Hdec Hv Hs Hbad).
Qed.

(** X7.  An entry that is an object without a [path] key, reached after
    entries the loop gets through, ends the run in a [KeyError]; an entry
    that is no object at all ends it in a [TypeError].  Nothing is
    written. *)
Theorem malformed_entry_exception args w good bad rest vals :
  metadata_decodes json_loads args w (JArr (good ++ bad :: rest)) ->
  path_values good = Some vals ->
  Forall (has_size w) vals ->
  path_value bad = None ->
  main_args json_loads args w
  = (w, Raise (match bad with JObj _ => KeyError | _ => TypeError end)).
Proof.
  intros Hdec Hv Hs Hbad.
  assert ((visit bad w).2
          = Raise (match bad with JObj _ => KeyError | _ => TypeError end))
    as Hx.
  { unfold path_value in Hbad. unfold visit. rewrite bind_lift.
    destruct bad as [| | | | |l|items]; try reflexivity.
    simpl in *. by destruct (Py.dict_get items "path"). }
  unfold main_args.
  by raises (load_stops_at_bad _ _ _ _ _ _ _ _ Hdec Hv Hs Hx).
Qed.

(** X9.  Metadata that is JSON but nothing the loop gets through - a
    number, a boolean, [null], an object with a key, a string with a
    character - ends the run in a [TypeError], with no file written. *)
Theorem top_level_rejected_exception args w v :
  metadata_decodes json_loads args w v ->
  top_level_rejected v = true ->
  main_args json_loads args w = (w, Raise TypeError).
Proof.
  intros Hdec Hv. unfold main_args.
  assert (load_metadata json_loads args w = (w, Raise TypeError)) as Hl.
  { rewrite (load_metadata_decodes _ _ _ _ Hdec), bind_lift.
    destruct v as [| | | |s|l|items]; try done.
    - destruct s as [|c s]; [done|]. reflexivity.
    - destruct items as [|[k x] items]; [done|]. reflexivity. }
  by raises Hl.
Qed.

(** X10.  The empty object and the empty string stand for the empty
    array: with such metadata the run comes to its end, with a dependency
    record that lists no path and a stub of size 0. *)
Theorem empty_object_acts_as_empty_array args w v f d o :
  metadata_decodes json_loads args w v ->
  v = JObj [] \/ v = JStr EmptyString ->
  name args = Some f -> depfile args = Some d -> outfile args = Some o ->
  writable w d = true -> writable w o = true ->
  main_args json_loads args w = (outputs args w f d o [], Return tt) /\
  contents (outputs args w f d o []) o
  = Some (stub_text (PyStr.str_int (year (today w)))
            (PyStr.str_opt (header args)) f
            ("CASE_ID_" +:+ PyStr.upper f) "0"
          +:+ alias_blocks f (aliases args)) /\
  (~ same_file d o ->
   contents (outputs args w f d o []) d = Some (o +:+ ": " +:+ nl)).
Proof.
  intros Hdec Hv Hf Hd Ho Hwd Hwo. split; [|split].
  - apply main_args_accepted. constructor; try done.
    exists v, []. split; [done|]. by destruct Hv as [-> | ->].
  - unfold outputs. by rewrite contents_written_eq.
  - intros Hne. unfold outputs.
    rewrite contents_written_ne by (intros Hs; apply Hne; by symmetry).
    by rewrite contents_written_eq.
Qed.

(** X11.  A [path] that is a number naming an open file descriptor gets
    through the loop, and fails the dependency record: the run ends in a
    [TypeError] with the dependency file created and left empty, and the
    stub file not opened. *)
Theorem numeric_path_leaves_empty_depfile args w entries vals d :
  metadata_decodes json_loads args w (JArr entries) ->
  path_values entries = Some vals ->
  Forall (has_size w) vals ->
  Py.all_str vals = None ->
  depfile args = Some d -> writable w d = true ->
  main_args json_loads args w = (written w d EmptyString, Raise TypeError).
Proof.
  intros Hdec Hv Hs Hn Hd Hwd. unfold main_args.
  assert (load_metadata json_loads args w
          = (w, Return (fold_left Z.max (map (value_size w) vals) 0, vals)))
    as Hl.
  { rewrite (load_metadata_decodes _ _ _ _ Hdec), bind_lift. simpl.
    by rewrite (scan_entries_values _ _ 0 [] _ Hv Hs). }
  returns Hl. simpl. unfold write_depfile at 1. rewrite Hd.
  unfold bind at 1. returns (open_w_ok _ _ Hwd).
  unfold depfile_line. by rewrite Hn.
Qed.

(** X12.  Without the stub file option the run writes a dependency
    record whose target is the word [None], and then ends in a
    [TypeError]. *)
Theorem omitted_outfile_names_None args w d paths :
  outfile args = None ->
  depfile args = Some d -> writable w d = true ->
  metadata_lists json_loads args w paths ->
  Forall (fun p => is_Some (file_at w p)) paths ->
  main_args json_loads args w
  = (written w d (dep_line "None" paths), Raise TypeError).
Proof.
  intros Ho Hd Hwd Hm Hex. unfold main_args.
  returns (load_metadata_ok _ _ _ _ Hm Hex). simpl.
  returns (write_depfile_ok _ _ _ _ Hd Hwd).
  unfold write_stub. by rewrite Ho.
Qed.

(** X13.  When the dependency file cannot be opened - the option is not
    given, or the system refuses the place - the run ends in an exception
    and writes nothing, the stub included; with good metadata the
    exception is a [TypeError] for the option not given, and for a place
    refused the exception the system raises for it. *)
Theorem depfile_not_opened_writes_nothing args w :
  depfile args = None \/
  (exists d, depfile args = Some d /\ writable w d = false) ->
  exists e,
    main_args json_loads args w = (w, Raise e) /\
    forall paths,
      metadata_lists json_loads args w paths ->
      Forall (fun p => is_Some (file_at w p)) paths ->
      match depfile args with
      | None => e = TypeError
      | Some d => open_error w d = Some e
      end.
Proof.
  intros H. unfold main_args. unfold bind at 1.
  pose proof (load_metadata_world json_loads args w) as Hw.
  destruct (load_metadata json_loads args w) as [w0 [r|e]] eqn:Hl;
    simpl in Hw; subst w0.
  - destruct H as [Hd | (d & Hd & Hwd)].
    + exists TypeError.
      assert (write_depfile args r.2 w = (w, Raise TypeError)) as Hx
        by (unfold write_depfile; by rewrite Hd).
      raises Hx. rewrite Hd. split; [done|]. by intros _ _ _.
    + destruct (not_writable _ _ Hwd) as [x Hx].
      exists x.
      assert (write_depfile args r.2 w = (w, Raise x)) as Hy.
      { unfold write_depfile. rewrite Hd.
        by raises (open_w_denied _ _ _ Hx). }
      raises Hy. rewrite Hd. split; [done|]. by intros _ _ _.
  - exists e. split; [done|]. intros paths Hm Hex.
    rewrite (load_metadata_ok _ _ _ _ Hm Hex) in Hl. discriminate.
Qed.

End Errors.

(** ** The command line, taken apart and put together *)

Lemma parse_from_step flag value argv ns ns' :
  plain value -> store flag value ns = Some ns' ->
  parse_from (flag :: value :: argv) ns = parse_from argv ns'.
Proof.
  intros Hp Hs. simpl.
  assert ((String.eqb flag "--help" || String.eqb flag "-h")%bool = false)
    as ->.
  { unfold store in Hs.
    destruct (String.eqb flag "--help") eqn:E1.
    { apply String.eqb_eq in E1. by subst flag. }
    destruct (String.eqb flag "-h") eqn:E2; [|done].
    apply String.eqb_eq in E2. by subst flag. }
  unfold plain in Hp. by rewrite Hp, Hs.
Qed.

Lemma parse_from_aliases al : forall argv ns,
  Forall plain al ->
  parse_from (flat_map (fun a => ["--aliases"; a]) al ++ argv) ns
  = parse_from argv
      {| name := name ns; header := header ns;
         metadata_file := metadata_file ns;
         aliases := aliases ns ++ al;
         depfile := depfile ns; outfile := outfile ns |}.
Proof.
  induction al as [|a r IH]; intros argv ns Hp.
  - simpl. rewrite app_nil_r. by destruct ns.
  - apply Forall_cons in Hp as [Ha Hr]. cbn [flat_map app].
    rewrite (parse_from_step "--aliases" a _ ns _ Ha eq_refl).
    rewrite (IH _ _ Hr). simpl. by rewrite <- app_assoc.
Qed.

(** X15.  A namespace whose values do not begin with a dash is what
    [parse_args] makes of the command line that spells it: each option
    given is stored where it belongs, each option left out stays [None],
    and the aliases come out in the order they went in. *)
Theorem parse_args_unparse ns :
  plain_namespace ns -> parse_args (unparse ns) = Return ns.
Proof.
  intros (Hn & Hh & Hm & Ha & Hd & Ho).
  destruct ns as [n h m al d o]. unfold parse_args, unparse, defaults.
  cbn [name header metadata_file aliases depfile outfile] in *.
  destruct n as [n|]; cbn [option_args app plain_opt] in *;
    [rewrite (parse_from_step "--name" n _ _ _ Hn eq_refl)|];
  (destruct h as [h|]; cbn [option_args app plain_opt] in *;
    [rewrite (parse_from_step "--header" h _ _ _ Hh eq_refl)|]);
  (destruct m as [m|]; cbn [option_args app plain_opt] in *;
    [rewrite (parse_from_step "--metadata-file" m _ _ _ Hm eq_refl)|]);
  rewrite (parse_from_aliases al _ _ Ha);
  (destruct d as [d|]; cbn [option_args app plain_opt] in *;
    [rewrite (parse_from_step "--depfile" d _ _ _ Hd eq_refl)|]);
  (destruct o as [o|]; cbn [option_args app plain_opt] in *;
    [rewrite (parse_from_step "--outfile" o _ _ _ Ho eq_refl)|]);
  reflexivity.
Qed.

(** X16.  Of an option given more than once the last value counts,
    except for [--aliases], of which every value is kept. *)
Theorem last_value_counts flag v1 v2 argv ns ns1 ns2 :
  flag <> "--aliases" ->
  plain v1 -> plain v2 ->
  store flag v1 ns = Some ns1 ->
  store flag v2 ns = Some ns2 ->
  parse_from (flag :: v1 :: flag :: v2 :: argv) ns = parse_from argv ns2.
Proof.
  intros Hf Hp1 Hp2 H1 H2.
  rewrite (parse_from_step _ _ _ _ _ Hp1 H1).
  apply parse_from_step; [done|].
  unfold store in *.
  destruct (String.eqb flag "--name");
    [by injection H1 as <-; injection H2 as <- |].
  destruct (String.eqb flag "--header");
    [by injection H1 as <-; injection H2 as <- |].
  destruct (String.eqb flag "--metadata-file");
    [by injection H1 as <-; injection H2 as <- |].
  destruct (String.eqb flag "--aliases") eqn:E;
    [apply String.eqb_eq in E; contradiction |].
  destruct (String.eqb flag "--depfile");
    [by injection H1 as <-; injection H2 as <- |].
  destruct (String.eqb flag "--outfile");
    [by injection H1 as <-; injection H2 as <- |].
  done.
Qed.

(** ** Runs compared *)




Lemma fold_max_Permutation (l1 l2 : list Z) :
  l1 ≡ₚ l2 -> forall m, fold_left Z.max l1 m = fold_left Z.max l2 m.
Proof.
  induction 1 as [|x l1 l2 _ IH|x y l|l1 l2 l3 _ IH1 _ IH2]; intros m; simpl.
  - done.
  - apply IH.
  - f_equal. lia.
  - by rewrite IH1.
Qed.

Lemma max_size_Permutation w paths1 paths2 :
  paths1 ≡ₚ paths2 -> max_size w paths1 = max_size w paths2.
Proof.
  intros H. unfold max_size. apply fold_max_Permutation.
  by apply fmap_Permutation.
Qed.

Lemma sorted_of_Permutation paths1 paths2 :
  paths1 ≡ₚ paths2 -> PyStr.sorted paths1 = PyStr.sorted paths2.
Proof.
  intros H. apply (StronglySorted_unique String.le).
  - apply sorted_StronglySorted.
  - apply sorted_StronglySorted.
  - by rewrite !sorted_Permutation.
Qed.

Section Compared.

Variable json_loads : string -> option json.


(** X3.  The order of the entries in the metadata does not show in the
    outputs: two metadata files whose [path] values are rearrangements of
    one another give the same dependency file and the same stub. *)
Theorem entry_order_is_irrelevant args w f d o paths m2 paths2 :
  valid json_loads args w f d o paths ->
  valid json_loads (set_metadata_file args m2) w f d o paths2 ->
  paths ≡ₚ paths2 ->
  main_args json_loads (set_metadata_file args m2) w
  = main_args json_loads args w.
Proof.
  intros Hv Hv2 Hp.
  rewrite (main_args_valid _ _ _ _ _ _ _ Hv).
  rewrite (main_args_valid _ _ _ _ _ _ _ Hv2). simpl.
  unfold dep_line.
  by rewrite (sorted_of_Permutation _ _ Hp), (max_size_Permutation _ _ _ Hp).
Qed.

(** X17.  The size the loop reaches is never negative, and metadata that
    lists more files never gives a smaller size. *)
Theorem size_grows_with_alternatives args1 args2 w paths1 paths2 :
  metadata_lists json_loads args1 w paths1 ->
  metadata_lists json_loads args2 w paths2 ->
  Forall (fun p => is_Some (file_at w p)) paths2 ->
  paths1 ⊆ paths2 ->
  exists r1 r2,
    load_metadata json_loads args1 w = (w, Return r1) /\
    load_metadata json_loads args2 w = (w, Return r2) /\
    0 <= r1.1 <= r2.1.
Proof.
  intros Hm1 Hm2 Hex2 Hsub.
  assert (Forall (fun p => is_Some (file_at w p)) paths1) as Hex1.
  { rewrite Forall_forall in Hex2. apply Forall_forall.
    intros p Hp. by apply Hex2, Hsub. }
  exists (max_size w paths1, map JStr paths1),
    (max_size w paths2, map JStr paths2).
  split; [by apply load_metadata_ok|].
  split; [by apply load_metadata_ok|]. simpl.
  destruct (max_size_spec w paths1 Hex1) as (Hnil & _ & Hmax).
  destruct (max_size_spec w paths2 Hex2) as (_ & Hle & _).
  destruct paths1 as [|p ps].
  - rewrite (Hnil eq_refl). split; [lia|].
    unfold max_size. by destruct (fold_max_spec (map (size w) paths2) 0).
  - destruct (Hmax ltac:(done)) as (q & Hq & Hsz).
    assert (size w q = max_size w (p :: ps)) as <-.
    { unfold size. by rewrite Hsz. }
    split; [apply size_nonneg|]. by apply Hle, Hsub.
Qed.

End Compared.

End Further.

(** ** The further properties on a concrete disk *)

Section OnEdge.

#[local] Existing Instance Scenario.paths.
#[local] Existing Instance PyStr.ascii_only.

Ltac edge_file m :=
  exists m; eexists; repeat split; (vm_compute; reflexivity).

Ltac edge_sizes := repeat constructor; eexists; (vm_compute; reflexivity).

Lemma edge_valid :
  valid MiniJson.loads (Edge.args "m.json") Edge.disk "foo" "out.d" "out.S"
    ["b.S"; "a.S"].
Proof.
  constructor; try reflexivity.
  - eexists "m.json", _, _. repeat split; (vm_compute; reflexivity).
  - edge_sizes.
Defined.

Lemma edge_valid_rev :
  valid MiniJson.loads (set_metadata_file (Edge.args "m.json") "rev.json")
    Edge.disk "foo" "out.d" "out.S" ["a.S"; "b.S"].
Proof.
  constructor; try reflexivity.
  - eexists "rev.json", _, _. repeat split; (vm_compute; reflexivity).
  - edge_sizes.
Defined.

Lemma edge_accepted :
  accepted MiniJson.loads (Edge.args "m.json") Edge.disk "foo" "out.d" "out.S"
    ["b.S"; "a.S"].
Proof.
  constructor; try reflexivity.
  - eexists _, _. split; [|split].
    + edge_file "m.json".
    + reflexivity.
    + reflexivity.
  - edge_sizes.
Defined.

Lemma run_touches_only_outputs_witness :
  file_at (main_args MiniJson.loads (Edge.args "m.json") Edge.disk).1 "a.S"
  = file_at Edge.disk "a.S".
Proof.
  apply run_touches_only_outputs.
  - intros d [= <-]. unfold same_file. vm_compute. discriminate.
  - intros o [= <-]. unfold same_file. vm_compute. discriminate.
Defined.

Lemma success_only_if_accepted_witness :
  exists f d o paths,
    accepted MiniJson.loads (Edge.args "m.json") Edge.disk f d o paths /\
    outputs (Edge.args "m.json") Edge.disk "foo" "out.d" "out.S"
      ["b.S"; "a.S"]
    = outputs (Edge.args "m.json") Edge.disk f d o paths.
Proof.
  apply (success_only_if_accepted MiniJson.loads (Edge.args "m.json")
           Edge.disk).
  vm_compute. reflexivity.
Defined.


Lemma entry_order_is_irrelevant_witness :
  main_args MiniJson.loads (set_metadata_file (Edge.args "m.json") "rev.json")
    Edge.disk
  = main_args MiniJson.loads (Edge.args "m.json") Edge.disk.
Proof.
  apply (entry_order_is_irrelevant _ _ _ _ _ _ _ _ _ edge_valid edge_valid_rev).
  apply perm_swap.
Defined.

Lemma first_bad_entry_decides_witness :
  main_args MiniJson.loads (Edge.args "nokey.json") Edge.disk
  = (Edge.disk, Raise KeyError).
Proof.
  apply (first_bad_entry_decides _ _ _
           [JObj [("path", JStr "a.S")]] (JObj [("size", JInt 3)])
           [JObj [("path", JStr "gone.S")]] [JStr "a.S"]).
  - edge_file "nokey.json".
  - reflexivity.
  - edge_sizes.
  - reflexivity.
Defined.

Lemma malformed_entry_exception_witness :
  main_args MiniJson.loads (Edge.args "nokey.json") Edge.disk
  = (Edge.disk, Raise KeyError) /\
  main_args MiniJson.loads (Edge.args "notobj.json") Edge.disk
  = (Edge.disk, Raise TypeError).
Proof.
  split.
  - apply (malformed_entry_exception _ _ _
             [JObj [("path", JStr "a.S")]] (JObj [("size", JInt 3)])
             [JObj [("path", JStr "gone.S")]] [JStr "a.S"]).
    + edge_file "nokey.json".
    + reflexivity.
    + edge_sizes.
    + reflexivity.
  - apply (malformed_entry_exception _ _ _
             [JObj [("path", JStr "a.S")]] (JStr "b.S") [] [JStr "a.S"]).
    + edge_file "notobj.json".
    + reflexivity.
    + edge_sizes.
    + reflexivity.
Defined.

Lemma top_level_rejected_exception_witness :
  main_args MiniJson.loads (Edge.args "number.json") Edge.disk
  = (Edge.disk, Raise TypeError) /\
  main_args MiniJson.loads (Edge.args "object.json") Edge.disk
  = (Edge.disk, Raise TypeError).
Proof.
  split.
  - apply (top_level_rejected_exception _ _ _ (JInt 7)).
    + edge_file "number.json".
    + reflexivity.
  - apply (top_level_rejected_exception _ _ _ (JObj [("path", JStr "a.S")])).
    + edge_file "object.json".
    + reflexivity.
Defined.

Lemma empty_object_acts_as_empty_array_witness :
  main_args MiniJson.loads (Edge.args "emptyobj.json") Edge.disk
  = (outputs (Edge.args "emptyobj.json") Edge.disk "foo" "out.d" "out.S" [],
     Return tt) /\
  contents
    (outputs (Edge.args "emptyobj.json") Edge.disk "foo" "out.d" "out.S" [])
    "out.S"
  = Some (stub_text (PyStr.str_int (year (today Edge.disk)))
            (PyStr.str_opt (header (Edge.args "emptyobj.json"))) "foo"
            ("CASE_ID_" +:+ PyStr.upper "foo") "0"
          +:+ alias_blocks "foo" (aliases (Edge.args "emptyobj.json"))) /\
  (~ same_file "out.d" "out.S" ->
   contents
     (outputs (Edge.args "emptyobj.json") Edge.disk "foo" "out.d" "out.S" [])
     "out.d"
   = Some ("out.S" +:+ ": " +:+ nl)).
Proof.
  apply (empty_object_acts_as_empty_array MiniJson.loads _ _ (JObj []));
    try reflexivity.
  - edge_file "emptyobj.json".
  - by left.
Defined.

Lemma numeric_path_leaves_empty_depfile_witness :
  main_args MiniJson.loads (Edge.args "fd.json") Edge.disk
  = (written Edge.disk "out.d" EmptyString, Raise TypeError).
Proof.
  apply (numeric_path_leaves_empty_depfile _ _ _
           [JObj [("path", JStr "a.S")]; JObj [("path", JInt 0)]]
           [JStr "a.S"; JInt 0]); try reflexivity.
  - edge_file "fd.json".
  - edge_sizes.
Defined.

Lemma edge_lists args :
  metadata_file args = Some "m.json" ->
  metadata_lists MiniJson.loads args Edge.disk ["b.S"; "a.S"].
Proof.
  intros H. eexists "m.json", _, _.
  split; [exact H|]. repeat split; (vm_compute; reflexivity).
Defined.

Lemma edge_alternatives :
  Forall (fun p => is_Some (file_at Edge.disk p)) ["b.S"; "a.S"].
Proof. edge_sizes. Defined.

Lemma omitted_outfile_names_None_witness :
  main_args MiniJson.loads Edge.args_no_outfile Edge.disk
  = (written Edge.disk "out.d" (dep_line "None" ["b.S"; "a.S"]),
     Raise TypeError).
Proof.
  apply omitted_outfile_names_None; try reflexivity.
  - by apply edge_lists.
  - apply edge_alternatives.
Defined.

Lemma depfile_not_opened_writes_nothing_witness :
  (exists e,
     main_args MiniJson.loads Edge.args_no_depfile Edge.disk
     = (Edge.disk, Raise e) /\
     forall paths,
       metadata_lists MiniJson.loads Edge.args_no_depfile Edge.disk paths ->
       Forall (fun p => is_Some (file_at Edge.disk p)) paths ->
       e = TypeError) /\
  (exists e,
     main_args MiniJson.loads Edge.args_readonly_depfile Edge.disk
     = (Edge.disk, Raise e) /\
     forall paths,
       metadata_lists MiniJson.loads Edge.args_readonly_depfile Edge.disk
         paths ->
       Forall (fun p => is_Some (file_at Edge.disk p)) paths ->
       open_error Edge.disk "/ro/out.d" = Some e).
Proof.
  split.
  - apply (depfile_not_opened_writes_nothing MiniJson.loads
             Edge.args_no_depfile Edge.disk).
    by left.
  - apply (depfile_not_opened_writes_nothing MiniJson.loads
             Edge.args_readonly_depfile Edge.disk).
    right. exists "/ro/out.d". split; reflexivity.
Defined.

Lemma parse_args_unparse_witness :
  parse_args (unparse (Edge.args "m.json")) = Return (Edge.args "m.json").
Proof.
  apply parse_args_unparse.
  repeat split; try reflexivity. repeat constructor.
Defined.

Lemma last_value_counts_witness :
  parse_from ["--name"; "foo"; "--name"; "quux"; "--header"; "h.h"] defaults
  = parse_from ["--header"; "h.h"]
      {| name := Some "quux"; header := None; metadata_file := None;
         aliases := []; depfile := None; outfile := None |}.
Proof.
  apply (last_value_counts "--name" "foo" "quux" _ defaults
           {| name := Some "foo"; header := None; metadata_file := None;
              aliases := []; depfile := None; outfile := None |});
    try reflexivity.
  discriminate.
Defined.

Lemma size_grows_with_alternatives_witness :
  exists r1 r2,
    load_metadata MiniJson.loads (Edge.args "one.json") Edge.disk
    = (Edge.disk, Return r1) /\
    load_metadata MiniJson.loads (Edge.args "m.json") Edge.disk
    = (Edge.disk, Return r2) /\
    0 <= r1.1 <= r2.1.
Proof.
  apply (size_grows_with_alternatives _ _ _ _ ["a.S"] ["b.S"; "a.S"]).
  - eexists "one.json", _, _. repeat split; (vm_compute; reflexivity).
  - by apply edge_lists.
  - apply edge_alternatives.
  - intros p Hp. apply list_elem_of_In. apply list_elem_of_In in Hp.
    simpl in *. tauto.
Defined.

End OnEdge.
